(** * Genesis transaction collection (x/genutil/collect.go)

    A shallow embedding of [CollectStdTxs] and [GenAppStateFromConfig]:
    the directory scan, the per-file validation, the persistent-peers
    string, and the two files the assembly run writes.

    Go's multiple return values are kept as tuples, a failed type
    assertion is a [Panic], and file-system calls leave [event]s in a
    trace so that "read" and "written" are properties one can state. *)

From Stdlib Require Import String Ascii List Bool Permutation Sorted.
From stdpp Require Import gmap strings list sorting.

Local Open Scope string_scope.
Local Open Scope list_scope.

(** ** Go standard library functions used by the file *)

Module strings.

(** [strings.Join(elems, sep)]. *)
Fixpoint Join (elems : list string) (sep : string) : string :=
  match elems with
  | [] => ""
  | [e] => e
  | e :: rest => e +:+ sep +:+ Join rest sep
  end.

End strings.

Module filepath.

Definition IsPathSeparator (c : ascii) : bool := Ascii.eqb c "/"%char.

(** [filepath.Ext]: the suffix beginning at the final dot in the final
    element of [path]; empty if there is no dot.  The Go loop walks from
    the end of the string; here the walk is the recursion's way back. *)
Fixpoint ext_scan (path : string) : option string :=
  match path with
  | EmptyString => None
  | String c rest =>
      match ext_scan rest with
      | Some r => Some r
      | None =>
          if IsPathSeparator c then Some ""
          else if Ascii.eqb c "."%char then Some path
          else None
      end
  end.

Definition Ext (path : string) : string := default "" (ext_scan path).

(** [filepath.Join]: empty elements are ignored and the rest is joined
    with the separator.  The lexical clean-up of the result ([Clean]) is
    not modelled: the result is Go's when the directory path is clean
    already (no trailing or doubled separator, no [.] or [..] element) and
    the other elements are plain names, as the entry names that
    [ioutil.ReadDir] returns are; otherwise only the spelling of the path
    differs, never the file it names. *)
Definition Join (elems : list string) : string :=
  strings.Join (filter (λ e, e ≠ "") elems) "/".

End filepath.

Module sort.

(** Go compares strings byte by byte, as [String.leb] does. *)
Definition string_le (a b : string) : Prop := String.leb a b = true.

#[global] Instance string_le_dec a b : Decision (string_le a b).
Proof. unfold string_le. apply _. Defined.

(** [sort.Strings]: sorts in increasing order.  Equal strings are
    indistinguishable, so any sorting algorithm is a model of it. *)
Definition Strings (a : list string) : list string := merge_sort string_le a.

End sort.

(** ** Data model *)

(** [[]byte] and [json.RawMessage] payloads; their content is only ever
    handed to the codec. *)
Abbreviation bytes := string (only parsing).

(** [sdk.AccAddress], kept in the text form that [String()] returns: the
    code uses an address only through [String()]. *)
Module sdk.
Definition AccAddress := string.
Definition String (a : AccAddress) : string := a.
End sdk.

(** [authexported.Account]: the address, the text that [String()] prints,
    and fields this code never reads. *)
Record Account := {
  GetAddress : sdk.AccAddress;
  GetAccountNumber : N;
  GetSequence : N;
  AccountString : string;
}.

(** [validator.Description] and [validator.MsgCreateValidator]. *)
Record Description := { Name : string }.

Record MsgCreateValidator := {
  Signer : sdk.AccAddress;
  Descr : Description;
}.

(** [sdk.Msg] is an interface; the dynamic type of a value is either
    [validator.MsgCreateValidator] or something else, named by its route. *)
Inductive Msg :=
| CreateValidator (m : MsgCreateValidator)
| OtherMsg (route : string).

(** [authtypes.StdTx], with the two fields read through [GetMsgs] and
    [GetMemo]. *)
Record StdTx := {
  GetMsgs : list Msg;
  GetMemo : string;
}.

(** [os.FileInfo] of a directory entry. *)
Record FileInfo := {
  FileName : string;
  IsDir : bool;
}.

(** [tmtypes.GenesisDoc]. *)
Record GenesisDoc := {
  ChainID : string;
  AppState : bytes;
}.

(** [cfg.Config]: [Moniker], [RootDir], [P2P.PersistentPeers] and the
    [Genesis] path that [GenesisFile()] roots. *)
Record Config := {
  RootDir : string;
  Moniker : string;
  Genesis : string;
  PersistentPeers : string;
}.

Definition set_PersistentPeers (config : Config) (peers : string) : Config :=
  {| RootDir := RootDir config; Moniker := Moniker config;
     Genesis := Genesis config; PersistentPeers := peers |}.

(** [config.GenesisFile()]: the [Genesis] path, rooted at [RootDir] unless
    it is absolute. *)
Definition GenesisFile (config : Config) : string :=
  if String.prefix "/" (Genesis config) then Genesis config
  else filepath.Join [RootDir config; Genesis config].

Record InitConfig := { GenTxsDir : string }.

(** ** Errors and results *)

Inductive error :=
| ErrIO (detail : string)              (* os and ioutil failures *)
| ErrCodec (detail : string)           (* codec failures *)
| ErrUnknownRequest (msg : string).    (* sdk.ErrUnknownRequest(msg) *)

(** A Go [(value, err)] pair of a call that yields one or the other. *)
Inductive result (A : Type) :=
| Ok (a : A)
| Err (e : error).
Arguments Ok {A} a.
Arguments Err {A} e.

(** ** The environment of a run *)

(** [*codec.Codec], as far as this file calls it. *)
Record Codec := {
  UnmarshalAppState : bytes → result (gmap string bytes);
  UnmarshalStdTx : bytes → result StdTx;
  MarshalJSONIndent : gmap string bytes → result bytes;
}.

(** The file system the run sees. [WriteFails] tells for which paths a
    write fails. *)
Record FileSystem := {
  ReadDir : string → result (list FileInfo);
  ReadFile : string → result bytes;
  WriteFails : string → option error;
}.

(** Modelled from the spec: the account-iteration capability
    ([types.GenesisAccountsIterator], declared outside this file) yields the
    accounts embedded in the application state as a finite sequence and
    invokes the caller's callback once per account, until the callback asks
    to stop. *)
Record GenesisAccountsIterator := {
  GenesisAccounts : Codec → gmap string bytes → list Account;
}.

Fixpoint iterate {S : Type} (accs : list Account)
    (cb : Account → S → S * bool) (s : S) : S :=
  match accs with
  | [] => s
  | acc :: rest =>
      let '(s', stop) := cb acc s in
      if stop then s' else iterate rest cb s'
  end.

Definition IterateGenesisAccounts {S : Type} (it : GenesisAccountsIterator)
    (cdc : Codec) (appState : gmap string bytes)
    (cb : Account → S → S * bool) (s : S) : S :=
  iterate (GenesisAccounts it cdc appState) cb s.

(** The two functions of package genutil that [GenAppStateFromConfig]
    calls and that live in other files of the package. *)
Record Genutil := {
  GenesisStateFromGenDoc : Codec → GenesisDoc → result (gmap string bytes);
  SetGenTxsInAppGenesisState :
    Codec → gmap string bytes → list StdTx → result (gmap string bytes);
}.

(** ** Effects: a trace of file-system events, and panics *)

Inductive event :=
| EvReadDir (path : string)
| EvReadFile (path : string)
| EvWriteConfig (path : string) (config : Config)
| EvWriteGenesis (path : string) (genDoc : GenesisDoc).

Inductive outcome (A : Type) :=
| Ret (a : A)
| Panic (reason : string).
Arguments Ret {A} a.
Arguments Panic {A} reason.

(** A computation is what it returns (or the panic that ends it) and the
    events it performed, oldest first. *)
Definition M (A : Type) : Type := outcome A * list event.

#[global] Instance M_ret : MRet M := λ A a, (Ret a, []).

#[global] Instance M_bind : MBind M := λ A B k m,
  match m with
  | (Ret a, t) => let '(r, t') := k a in (r, t ++ t')
  | (Panic s, t) => (Panic s, t)
  end.

Definition panic {A} (reason : string) : M A := (Panic reason, []).
Definition emit (e : event) : M unit := (Ret tt, [e]).

Definition returned {A} (m : M A) : outcome A := fst m.
Definition events {A} (m : M A) : list event := snd m.

(** ** File-system calls *)

Section Calls.
Context (fs : FileSystem).

Definition ioutil_ReadDir (dirname : string) : M (result (list FileInfo)) :=
  emit (EvReadDir dirname);; mret (ReadDir fs dirname).

Definition ioutil_ReadFile (filename : string) : M (result bytes) :=
  emit (EvReadFile filename);; mret (ReadFile fs filename).

(** [cfg.WriteConfigFile] has no error result: when the write fails it
    ends the process. *)
Definition WriteConfigFile (path : string) (config : Config) : M unit :=
  match WriteFails fs path with
  | Some _ => panic "MustWriteFile failed"
  | None => emit (EvWriteConfig path config)
  end.

(** Modelled from the spec: [ExportGenesisFile], defined in another file
    of the package, persists the genesis document at the given path; a
    failed write is returned as an error. *)
Definition ExportGenesisFile (genDoc : GenesisDoc) (genFile : string)
    : M (option error) :=
  match WriteFails fs genFile with
  | Some e => mret (Some e)
  | None => emit (EvWriteGenesis genFile genDoc);; mret None
  end.
End Calls.

(** ** CollectStdTxs *)

(** [fmt]'s rendering of the account index under [%+v]: [map[k:v k:v]]
    with the keys in increasing order and each account printed by its
    [String()]. *)
Definition Sprint_addrMap (addrMap : gmap string Account) : string :=
  "map[" +:+
  strings.Join
    ((λ kv, kv.1 +:+ ":" +:+ AccountString kv.2) <$>
       merge_sort (λ a b, sort.string_le a.1 b.1) (map_to_list addrMap)) " "
  +:+ "]".

(** The callback handed to [IterateGenesisAccounts]. *)
Definition indexAccount (acc : Account) (addrMap : gmap string Account)
    : gmap string Account * bool :=
  (<[sdk.String (GetAddress acc) := acc]> addrMap, false).

(** How one round of the [for _, fo := range fos] loop ends: it falls
    through to the next entry with the two slices, or it returns from
    [CollectStdTxs] with an error. *)
Inductive control :=
| Next (appGenTxs : list StdTx) (addressesIPs : list string)
| Return (appGenTxs : list StdTx) (err : error).

Section Loop.
Context (fs : FileSystem) (cdc : Codec) (name genTxsDir : string).
Context (addrMap : gmap string Account).

Definition loopBody (fo : FileInfo)
    (appGenTxs : list StdTx) (addressesIPs : list string) : M control :=
  let filename := filepath.Join [genTxsDir; FileName fo] in
  if negb (IsDir fo) && negb (filepath.Ext filename =? ".json")%string then
    mret (Next appGenTxs addressesIPs)
  else
    r ← ioutil_ReadFile fs filename;
    match r with
    | Err err => mret (Return appGenTxs err)
    | Ok jsonRawTx =>
    match UnmarshalStdTx cdc jsonRawTx with
    | Err err => mret (Return appGenTxs err)
    | Ok genStdTx =>
      let appGenTxs := appGenTxs ++ [genStdTx] in
      let nodeAddrIP := GetMemo genStdTx in
      if (String.length nodeAddrIP =? 0)%nat then
        mret (Return appGenTxs (ErrUnknownRequest
          ("couldn't find node's address and IP in " +:+ FileName fo)))
      else
      let msgs := GetMsgs genStdTx in
      if negb (length msgs =? 1)%nat then
        mret (Return appGenTxs (ErrUnknownRequest
          "each genesis transaction must provide a single genesis message"))
      else
      match msgs with
      | [] => panic "index out of range"
      | OtherMsg _ :: _ =>
          panic "interface conversion: sdk.Msg is not validator.MsgCreateValidator"
      | CreateValidator msg :: _ =>
          let account := sdk.String (Signer msg) in
          match addrMap !! account with
          | None =>
              mret (Return appGenTxs (ErrUnknownRequest
                ("Error account " +:+ account +:+ " not in genesis.json: "
                 +:+ Sprint_addrMap addrMap)))
          | Some _ =>
              if negb (Name (Descr msg) =? name)%string then
                mret (Next appGenTxs (addressesIPs ++ [nodeAddrIP]))
              else
                mret (Next appGenTxs addressesIPs)
          end
      end
    end
    end.

Fixpoint rangeLoop (fos : list FileInfo)
    (appGenTxs : list StdTx) (addressesIPs : list string) : M control :=
  match fos with
  | [] => mret (Next appGenTxs addressesIPs)
  | fo :: rest =>
      c ← loopBody fo appGenTxs addressesIPs;
      match c with
      | Next appGenTxs addressesIPs => rangeLoop rest appGenTxs addressesIPs
      | Return appGenTxs err => mret (Return appGenTxs err)
      end
  end.
End Loop.

(** [CollectStdTxs] returns [(appGenTxs, persistentPeers, err)]. *)
Definition CollectStdTxs (fs : FileSystem) (cdc : Codec)
    (name genTxsDir : string) (genDoc : GenesisDoc)
    (genAccIterator : GenesisAccountsIterator)
    : M (list StdTx * string * option error) :=
  r ← ioutil_ReadDir fs genTxsDir;
  match r with
  | Err err => mret ([], "", Some err)
  | Ok fos =>
  match UnmarshalAppState cdc (AppState genDoc) with
  | Err err => mret ([], "", Some err)
  | Ok appState =>
    let addrMap :=
      IterateGenesisAccounts genAccIterator cdc appState indexAccount ∅ in
    c ← rangeLoop fs cdc name genTxsDir addrMap fos [] [];
    match c with
    | Return appGenTxs err => mret (appGenTxs, "", Some err)
    | Next appGenTxs addressesIPs =>
        let addressesIPs := sort.Strings addressesIPs in
        mret (appGenTxs, strings.Join addressesIPs ",", None)
    end
  end
  end.

(** ** GenAppStateFromConfig *)

(** Returns [(appState, err)]; [appState] is empty on every error path. *)
Definition GenAppStateFromConfig (fs : FileSystem) (genutil : Genutil)
    (cdc : Codec) (config : Config) (initCfg : InitConfig)
    (genDoc : GenesisDoc) (genAccIterator : GenesisAccountsIterator)
    : M (bytes * option error) :=
  '(appGenTxs, persistentPeers, err) ←
    CollectStdTxs fs cdc (Moniker config) (GenTxsDir initCfg) genDoc genAccIterator;
  match err with
  | Some err => mret ("", Some err)
  | None =>
    let config := set_PersistentPeers config persistentPeers in
    WriteConfigFile fs
      (filepath.Join [RootDir config; "config"; "config.toml"]) config;;
    if (length appGenTxs =? 0)%nat then
      mret ("", Some (ErrUnknownRequest "there must be at least one genesis tx"))
    else
    match GenesisStateFromGenDoc genutil cdc genDoc with
    | Err err => mret ("", Some err)
    | Ok appGenesisState =>
    match SetGenTxsInAppGenesisState genutil cdc appGenesisState appGenTxs with
    | Err err => mret ("", Some err)
    | Ok appGenesisState =>
    match MarshalJSONIndent cdc appGenesisState with
    | Err err => mret ("", Some err)
    | Ok appState =>
      let genDoc := {| ChainID := ChainID genDoc; AppState := appState |} in
      err ← ExportGenesisFile fs genDoc (GenesisFile config);
      mret (appState, err)
    end
    end
    end
  end.

(** ** Views used to state properties *)

Section Views.
Context (fs : FileSystem) (cdc : Codec) (name genTxsDir : string).

(** The condition under which the loop executes [continue]. *)
Definition skips (fo : FileInfo) : bool :=
  negb (IsDir fo) &&
  negb (filepath.Ext (filepath.Join [genTxsDir; FileName fo]) =? ".json")%string.

(** The transaction an entry decodes to, when it is not skipped, can be
    read and can be deserialized. *)
Definition decodedTx (fo : FileInfo) : option StdTx :=
  if skips fo then None
  else match ReadFile fs (filepath.Join [genTxsDir; FileName fo]) with
       | Err _ => None
       | Ok raw =>
           match UnmarshalStdTx cdc raw with
           | Err _ => None
           | Ok tx => Some tx
           end
       end.

(** The validator display name carried by a single-message transaction. *)
Definition validatorName (tx : StdTx) : option string :=
  match GetMsgs tx with
  | [CreateValidator msg] => Some (Name (Descr msg))
  | _ => None
  end.

(** The signer of a single-message transaction. *)
Definition signerOf (tx : StdTx) : option string :=
  match GetMsgs tx with
  | [CreateValidator msg] => Some (sdk.String (Signer msg))
  | _ => None
  end.

(** What one entry adds to the two slices when its round falls through
    to the next entry; [None] when the round returns or panics. *)
Definition accept (addrMap : gmap string Account) (fo : FileInfo)
    : option (list StdTx * list string) :=
  match fst (loopBody fs cdc name genTxsDir addrMap fo [] []) with
  | Ret (Next txs addrs) => Some (txs, addrs)
  | _ => None
  end.

Definition txsOf (addrMap : gmap string Account) (fo : FileInfo) : list StdTx :=
  from_option fst [] (accept addrMap fo).

Definition addrsOf (addrMap : gmap string Account) (fo : FileInfo) : list string :=
  from_option snd [] (accept addrMap fo).
End Views.

(** The account index that [CollectStdTxs] builds. *)
Definition addrMapOf (cdc : Codec) (genDoc : GenesisDoc)
    (genAccIterator : GenesisAccountsIterator) : option (gmap string Account) :=
  match UnmarshalAppState cdc (AppState genDoc) with
  | Err _ => None
  | Ok appState =>
      Some (IterateGenesisAccounts genAccIterator cdc appState indexAccount ∅)
  end.

(** The run gets as far as entry [fo]: the listing succeeds, the account
    index is [addrMap], and the entries before [fo] fall through, leaving
    [sofar] collected. *)
Definition arrives (fs : FileSystem) (cdc : Codec) (name genTxsDir : string)
    (genDoc : GenesisDoc) (genAccIterator : GenesisAccountsIterator)
    (addrMap : gmap string Account) (fo : FileInfo) (sofar : list StdTx) : Prop :=
  ∃ pre post addrs t,
    ReadDir fs genTxsDir = Ok (pre ++ fo :: post) ∧
    addrMapOf cdc genDoc genAccIterator = Some addrMap ∧
    rangeLoop fs cdc name genTxsDir addrMap pre [] [] = (Ret (Next sofar addrs), t).

(** The run gets as far as entry [fo] and decodes it to [tx]. *)
Definition reaches (fs : FileSystem) (cdc : Codec) (name genTxsDir : string)
    (genDoc : GenesisDoc) (genAccIterator : GenesisAccountsIterator)
    (addrMap : gmap string Account) (fo : FileInfo) (tx : StdTx)
    (sofar : list StdTx) : Prop :=
  arrives fs cdc name genTxsDir genDoc genAccIterator addrMap fo sofar ∧
  decodedTx fs cdc genTxsDir fo = Some tx.

Definition is_write (e : event) : bool :=
  match e with
  | EvWriteConfig _ _ | EvWriteGenesis _ _ => true
  | _ => false
  end.

(** The files a computation wrote, oldest first. *)
Definition writes {A} (m : M A) : list event := filter is_write (events m).

(** [strings.Contains(str, s)]: [s] occurs in [str]. *)
Fixpoint Contains (str s : string) : bool :=
  String.prefix s str ||
  match str with
  | EmptyString => false
  | String _ rest => Contains rest s
  end.

(** A transaction that passes the checks of the loop: it has a memo, a
    single message, which creates a validator, and a signer that is a
    genesis account. *)
Definition validated (addrMap : gmap string Account) (tx : StdTx) : Prop :=
  GetMemo tx ≠ "" ∧
  ∃ msg, GetMsgs tx = [CreateValidator msg] ∧
         is_Some (addrMap !! sdk.String (Signer msg)).

(** The transactions that self-exclusion leaves in the peer list. *)
Definition others (name : string) (txs : list StdTx) : list StdTx :=
  filter (λ tx, validatorName tx ≠ Some name) txs.

(** ** A small network used in the examples *)

Module Scenario.

Definition mkTx (memo name signer : string) : StdTx :=
  {| GetMsgs := [CreateValidator {| Signer := signer; Descr := {| Name := name |} |}];
     GetMemo := memo |}.

Definition mkAcc (addr : string) : Account :=
  {| GetAddress := addr; GetAccountNumber := 0; GetSequence := 0;
     AccountString := "account " +:+ addr |}.

(** A file system with one directory, ["gentxs"], given by its entries
    and by what reading each of them yields; every write succeeds. *)
Definition dirFS (entries : list (FileInfo * result bytes)) : FileSystem :=
  {| ReadDir d :=
       if (d =? "gentxs")%string then Ok (entries.*1)
       else Err (ErrIO "no such directory");
     ReadFile p :=
       match
         list_find (λ e, p = filepath.Join ["gentxs"; FileName e.1]) entries
       with
       | Some (_, e) => e.2
       | None => Err (ErrIO "no such file")
       end;
     WriteFails _ := None |}.

Definition file (name : string) (payload : bytes) : FileInfo * result bytes :=
  ({| FileName := name; IsDir := false |}, Ok payload).

Definition subdir (name : string) : FileInfo * result bytes :=
  ({| FileName := name; IsDir := true |}, Err (ErrIO "is a directory")).

(** A codec that decodes the payloads of a table. *)
Definition tableCodec (table : list (bytes * StdTx)) : Codec :=
  {| UnmarshalAppState _ := Ok ∅;
     UnmarshalStdTx raw :=
       match list_find (λ e, raw = e.1) table with
       | Some (_, e) => Ok e.2
       | None => Err (ErrCodec "invalid character")
       end;
     MarshalJSONIndent _ := Ok "{}" |}.

Definition accounts (addrs : list string) : GenesisAccountsIterator :=
  {| GenesisAccounts _ _ := mkAcc <$> addrs |}.

Definition genutil : Genutil :=
  {| GenesisStateFromGenDoc cdc genDoc := UnmarshalAppState cdc (AppState genDoc);
     SetGenTxsInAppGenesisState _ st _ := Ok st |}.

Definition genDoc : GenesisDoc := {| ChainID := "zbl"; AppState := "{}" |}.

Definition config (moniker : string) : Config :=
  {| RootDir := "/root/.zbld"; Moniker := moniker;
     Genesis := "config/genesis.json"; PersistentPeers := "" |}.

Definition initCfg : InitConfig := {| GenTxsDir := "gentxs" |}.

Definition txAlice := mkTx "nodeA@10.0.0.1:26656" "alice" "addr1".
Definition txBob := mkTx "nodeB@10.0.0.2:26656" "bob" "addr2".
(** bob's transaction, signed by an address that is no genesis account. *)
Definition txStranger := mkTx "nodeB@10.0.0.2:26656" "bob" "addr3".
(** The same, with the memo left empty. *)
Definition txStrangerNoMemo := mkTx "" "bob" "addr3".
(** A second validator announcing alice's node address. *)
Definition txTwin := mkTx "nodeA@10.0.0.1:26656" "alice-backup" "addr2".
(** A transaction carrying a message of another module. *)
Definition txBank : StdTx :=
  {| GetMsgs := [OtherMsg "bank"]; GetMemo := "nodeC@10.0.0.3:26656" |}.
(** Transactions with two messages and with none. *)
Definition txTwoMsgs : StdTx :=
  {| GetMsgs := GetMsgs txBob ++ GetMsgs txBob; GetMemo := GetMemo txBob |}.
Definition txNoMsgs : StdTx :=
  {| GetMsgs := []; GetMemo := GetMemo txBob |}.

Definition cdc : Codec :=
  tableCodec
    [("alice-tx", txAlice); ("bob-tx", txBob); ("stranger-tx", txStranger);
     ("stranger-no-memo-tx", txStrangerNoMemo); ("twin-tx", txTwin);
     ("bank-tx", txBank); ("two-msgs-tx", txTwoMsgs); ("no-msgs-tx", txNoMsgs)].

Definition index : gmap string Account :=
  <["addr2" := mkAcc "addr2"]> (<["addr1" := mkAcc "addr1"]> ∅).

Definition entry (name : string) : FileInfo :=
  {| FileName := name; IsDir := false |}.

(** The directories of the examples. *)
Definition emptyDir := dirFS [].
Definition twoValidators := dirFS [file "v1.json" "alice-tx"; file "v2.json" "bob-tx"].
Definition twoValidatorsReversed :=
  dirFS [file "v2.json" "bob-tx"; file "v1.json" "alice-tx"].
Definition withTwoMsgs :=
  dirFS [file "v1.json" "alice-tx"; file "v2.json" "two-msgs-tx"; file "v3.json" "bob-tx"].
Definition withStranger :=
  dirFS [file "v1.json" "alice-tx"; file "v2.json" "stranger-tx"].
Definition strangerNoMemo := dirFS [file "v2.json" "stranger-no-memo-tx"].
Definition withTwin := dirFS [file "v1.json" "alice-tx"; file "v3.json" "twin-tx"].
Definition withBank := dirFS [file "v1.json" "alice-tx"; file "v2.json" "bank-tx"].
Definition withSubdir :=
  dirFS [file "v1.json" "alice-tx"; subdir "archive"; file "v2.json" "bob-tx"].
Definition withNotes :=
  dirFS [file "v1.json" "alice-tx"; file "NOTES.txt" "remember bob"; file "v2.json" "bob-tx"].

(** A run of [CollectStdTxs] over one of them, with accounts [addr1] and
    [addr2] in the genesis state. *)
Definition collect (fs : FileSystem) (moniker : string) :=
  CollectStdTxs fs cdc moniker "gentxs" genDoc (accounts ["addr1"; "addr2"]).

Definition assemble (fs : FileSystem) (moniker : string) :=
  GenAppStateFromConfig fs genutil cdc (config moniker) initCfg genDoc
    (accounts ["addr1"; "addr2"]).

End Scenario.

(** ** Further views *)

(** [strings.HasSuffix(s, suffix)]. *)
Fixpoint HasSuffix (s suffix : string) : bool :=
  (s =? suffix)%string ||
  match s with
  | EmptyString => false
  | String _ rest => HasSuffix rest suffix
  end.

(** The reads that the entries of a listing cause: one per entry that is
    not skipped, in listing order. *)
Definition readsOf (genTxsDir : string) (fos : list FileInfo) : list event :=
  (λ fo, EvReadFile (filepath.Join [genTxsDir; FileName fo])) <$>
  filter (λ fo, skips genTxsDir fo = false) fos.

(** An entry that lets the loop go on: it is skipped, or it decodes to a
    transaction that passes the checks. *)
Definition entryOK (fs : FileSystem) (cdc : Codec) (genTxsDir : string)
    (addrMap : gmap string Account) (fo : FileInfo) : Prop :=
  skips genTxsDir fo = true ∨
  ∃ tx, decodedTx fs cdc genTxsDir fo = Some tx ∧ validated addrMap tx.

(** ** Further directories for the examples *)

Module Cases.

(** A directory whose second file is not a serialized transaction. *)
Definition withGarbage :=
  Scenario.dirFS [Scenario.file "v1.json" "alice-tx";
                  Scenario.file "v2.json" "not a transaction";
                  Scenario.file "v3.json" "bob-tx"].

(** The directory of the two validators on a file system where the
    genesis file cannot be written. *)
Definition genesisNotWritable : FileSystem :=
  {| ReadDir := ReadDir Scenario.twoValidators;
     ReadFile := ReadFile Scenario.twoValidators;
     WriteFails p :=
       if (p =? "/root/.zbld/config/genesis.json")%string
       then Some (ErrIO "permission denied") else None |}.

(** A merge that stores the memos of the transactions it is given in the
    slot of the genesis transactions, and a codec that renders that slot:
    the marshalled state shows which transactions were merged. *)
Definition memoGenutil : Genutil :=
  {| GenesisStateFromGenDoc cdc genDoc := UnmarshalAppState cdc (AppState genDoc);
     SetGenTxsInAppGenesisState _ st txs :=
       Ok (<["genutil" := strings.Join (GetMemo <$> txs) ";"]> st) |}.

Definition memoCodec : Codec :=
  {| UnmarshalAppState := UnmarshalAppState Scenario.cdc;
     UnmarshalStdTx := UnmarshalStdTx Scenario.cdc;
     MarshalJSONIndent st := Ok (default "" (st !! "genutil")) |}.

End Cases.

(** * The REST request context (package rest)

    [RestContext] and its methods: the store query with its fall-back
    from the previous height, and the signing and broadcasting of a
    message.  Calls into the SDK, the node and the key base are functions
    of a [Backend]; what a method does to the outside is a trace of
    [effect]s. *)

Module rest.

(** ** Values *)

(** Go's [int64] arithmetic wraps around. *)
Definition wrap64 (z : Z) : Z := (z + 2 ^ 63) `mod` 2 ^ 64 - 2 ^ 63.

(** An [error] value, as far as this code uses one: the text of
    [Error()]. *)
Record goerror := { Error : string }.

(** A Go [(value, err)] pair of a call that yields one or the other. *)
Inductive try (A : Type) :=
| Got (a : A)
| Failed (err : goerror).
Arguments Got {A} a.
Arguments Failed {A} err.

(** The RPC client of a node: [Status()] gives the latest block height
    ([SyncInfo.LatestBlockHeight]) or fails. *)
Record Node := { Status : try Z }.

(** [client.CLIContext], with the fields this file reads or sets. *)
Record CLIContext := {
  Client : option Node;
  Height : Z;
  BroadcastMode : string;
}.

Definition WithHeight (c : CLIContext) (height : Z) : CLIContext :=
  {| Client := Client c; Height := height; BroadcastMode := BroadcastMode c |}.

Definition set_BroadcastMode (c : CLIContext) (mode : string) : CLIContext :=
  {| Client := Client c; Height := Height c; BroadcastMode := mode |}.

(** [CLIContext.GetNode]: the client, or an error when none is set. *)
Definition GetNode (c : CLIContext) : try Node :=
  match Client c with
  | Some node => Got node
  | None => Failed {| Error := "no RPC client defined" |}
  end.

(** [*http.Request]: the form values, each key with its values in order. *)
Record Request := { Form : gmap string (list string) }.

(** [Request.FormValue]: the first value of the key, or the empty string. *)
Definition FormValue (r : Request) (key : string) : string :=
  match Form r !! key with
  | Some (v :: _) => v
  | _ => ""
  end.

(** [rest.BaseReq] of the SDK. *)
Record BaseReq := {
  From : string;
  ChainID : string;
}.

(** [http.ResponseWriter] values are told apart by a name; [None] is the
    nil writer, and [None] is the nil request. *)
Record RestContext := {
  context : CLIContext;
  responseWriter : option string;
  request : option Request;
  baseReq : BaseReq;
  signer : sdk.AccAddress;
}.

(** [RestContext{}]. *)
Definition zero : RestContext :=
  {| context := {| Client := None; Height := 0; BroadcastMode := "" |};
     responseWriter := None;
     request := None;
     baseReq := {| From := ""; ChainID := "" |};
     signer := "" |}.

Definition set_context (ctx : RestContext) (c : CLIContext) : RestContext :=
  {| context := c; responseWriter := responseWriter ctx; request := request ctx;
     baseReq := baseReq ctx; signer := signer ctx |}.

Definition set_signer (ctx : RestContext) (from : sdk.AccAddress) : RestContext :=
  {| context := context ctx; responseWriter := responseWriter ctx;
     request := request ctx; baseReq := baseReq ctx; signer := from |}.

Definition FlagPreviousHeight : string := "prev_height".

(** [strconv.ParseBool]; the error names the function and quotes the
    input, [quote] being [strconv.Quote]. *)
Definition ParseBool (quote : string → string) (str : string)
    : bool * option goerror :=
  if bool_decide (str ∈ ["1"; "t"; "T"; "true"; "TRUE"; "True"]) then (true, None)
  else if bool_decide (str ∈ ["0"; "f"; "F"; "false"; "FALSE"; "False"]) then (false, None)
  else (false,
        Some {| Error := "strconv.ParseBool: parsing " +:+ quote str +:+ ": invalid syntax" |}).

(** ** The backend *)

Record Backend := {
  (** [strconv.Quote] *)
  Quote : string → string;
  (** [CLIContext.QueryStore(key, storeName)] at the height of the context *)
  StoreQuery : Z → string → string → option bytes * Z * option goerror;
  (** [CLIContext.QueryWithData(path, data)] at the height of the context *)
  DataQuery : Z → string → bytes → option bytes * Z * option goerror;
  (** [Codec.MustMarshalJSON]; [None] when it panics *)
  MustMarshalJSON : string → option bytes;
  (** [json.Marshal] *)
  json_Marshal : string → try bytes;
  (** [sdk.AccAddressFromBech32] *)
  AccAddressFromBech32 : string → try sdk.AccAddress;
  (** the account retriever: account number and sequence of an address *)
  GetAccount : sdk.AccAddress → try (N * N);
  (** the transaction builder's [BuildAndSign], for a chain identifier, an
      account number and a sequence *)
  BuildAndSign : string → N → N → string → string → list Msg → try bytes;
  (** [CLIContext.BroadcastTx] under a broadcast mode; the response *)
  BroadcastTx : string → bytes → try string;
  (** [Codec.MarshalJSON] of a broadcast response *)
  MarshalJSON : string → try bytes;
  (** the codec's marshalling of [rest.NewResponseWithHeight(height, body)],
      the last step of [rest.PostProcessResponse] *)
  MarshalResponseWithHeight : Z → option bytes → try bytes;
  (** [msg.ValidateBasic()] *)
  ValidateBasic : Msg → option goerror;
  (** [authutils.GetCredentialsFromRequest]: the account name and the
      passphrase that a request carries *)
  GetCredentialsFromRequest : Request → try (string * string);
}.

(** ** Effects *)

(** The calls that leave the process, and the responses written:
    [NodeStatus] is [node.Status()], [Signed] the call of [BuildAndSign],
    [Broadcast] the call of [BroadcastTx]; [ErrorResponse] is an error
    response written by [rest.WriteErrorResponse], [Response] a body
    written with its height by [rest.PostProcessResponse], and
    [GenerateResponse] the request handed to
    [utils.WriteGenerateStdTxResponse], which answers it. *)
Inductive effect :=
| NodeStatus
| StoreQueried (height : Z) (key storeName : string)
| DataQueried (height : Z) (path : string) (data : bytes)
| AccountFetched (addr : sdk.AccAddress)
| Signed (chainId name passphrase : string) (msgs : list Msg)
| Broadcast (mode : string) (tx : bytes)
| ErrorResponse (w : string) (status : nat) (text : string)
| Response (w : string) (height : Z) (body : option bytes)
| GenerateResponse (w : string) (br : BaseReq) (msgs : list Msg).

Definition RM (A : Type) : Type := outcome A * list effect.

#[global] Instance RM_ret : MRet RM := λ A a, (Ret a, []).

#[global] Instance RM_bind : MBind RM := λ A B k m,
  match m with
  | (Ret a, t) => let '(r, t') := k a in (r, t ++ t')
  | (Panic s, t) => (Panic s, t)
  end.

Definition crash {A} (reason : string) : RM A := (Panic reason, []).
Definition tell (e : effect) : RM unit := (Ret tt, [e]).

Definition result {A} (m : RM A) : outcome A := fst m.
Definition effects {A} (m : RM A) : list effect := snd m.

(** The responses written, of any kind. *)
Definition is_response (e : effect) : bool :=
  match e with
  | ErrorResponse _ _ _ | Response _ _ _ | GenerateResponse _ _ _ => true
  | _ => false
  end.

Definition is_store_query (e : effect) : bool :=
  match e with
  | StoreQueried _ _ _ => true
  | _ => false
  end.

Definition StatusBadRequest : nat := 400.
Definition StatusNotFound : nat := 404.
Definition StatusInternalServerError : nat := 500.

(** ** The methods *)

Section Methods.
Context (be : Backend).

(** [rest.WriteErrorResponse] of the SDK: the call sets a header of the
    writer first, which a nil writer does not survive. *)
Definition sdk_WriteErrorResponse (w : option string) (status : nat) (text : string)
    : RM unit :=
  match w with
  | None => crash "invalid memory address or nil pointer dereference"
  | Some w => tell (ErrorResponse w status text)
  end.

(** [rest.PostProcessResponse] of the SDK, for a body that is a byte
    slice: a negative height of the context is answered with an error, and
    so is a response that cannot be marshalled; otherwise the body is
    written, wrapped with the height. *)
Definition sdk_PostProcessResponse (w : option string) (c : CLIContext)
    (body : option bytes) : RM unit :=
  if (Height c <? 0)%Z then
    sdk_WriteErrorResponse w StatusInternalServerError "negative height in response"
  else
    match MarshalResponseWithHeight be (Height c) body with
    | Failed err => sdk_WriteErrorResponse w StatusInternalServerError (Error err)
    | Got _ =>
        match w with
        | None => crash "invalid memory address or nil pointer dereference"
        | Some w => tell (Response w (Height c) body)
        end
    end.

(** [utils.WriteGenerateStdTxResponse] of the SDK answers the request by
    itself; the effect is the call. *)
Definition sdk_WriteGenerateStdTxResponse (w : option string) (br : BaseReq)
    (msgs : list Msg) : RM unit :=
  match w with
  | None => crash "invalid memory address or nil pointer dereference"
  | Some w => tell (GenerateResponse w br msgs)
  end.

Definition context_QueryStore (c : CLIContext) (key storeName : string)
    : RM (option bytes * Z * option goerror) :=
  tell (StoreQueried (Height c) key storeName);;
  mret (StoreQuery be (Height c) key storeName).

Definition context_QueryWithData (c : CLIContext) (path : string) (data : bytes)
    : RM (option bytes * Z * option goerror) :=
  tell (DataQueried (Height c) path data);;
  mret (DataQuery be (Height c) path data).

Definition WithFormerHeight (ctx : RestContext) : RM (RestContext * option goerror) :=
  match GetNode (context ctx) with
  | Failed err =>
      sdk_WriteErrorResponse (responseWriter ctx) StatusInternalServerError (Error err);;
      mret (zero, Some err)
  | Got node =>
      tell NodeStatus;;
      match Status node with
      | Failed err =>
          sdk_WriteErrorResponse (responseWriter ctx) StatusInternalServerError (Error err);;
          mret (zero, Some err)
      | Got LatestBlockHeight =>
          mret (set_context ctx
                  (WithHeight (context ctx) (wrap64 (LatestBlockHeight - 1))),
                None)
      end
  end.

Definition WithSigner (ctx : RestContext) : RM (RestContext * option goerror) :=
  match AccAddressFromBech32 be (From (baseReq ctx)) with
  | Failed err =>
      sdk_WriteErrorResponse (responseWriter ctx) StatusBadRequest
        ("Request Parsing Error: " +:+ Error err +:+
         ". `from` must be a valid address");;
      mret (zero, Some err)
  | Got from => mret (set_signer ctx from, None)
  end.

(** The block [if requestPrevState { ... }] of [QueryStore]: [Some] is
    what the block returns from the method, [None] is falling out of the
    block. *)
Definition previousHeightBlock (ctx : RestContext) (key storeName : string)
    : RM (option (option bytes * Z * option goerror)) :=
  r ← WithFormerHeight ctx;
  match r with
  | (_, Some err) => mret (Some (None, 0%Z, Some err))
  | (ctx', None) =>
      q ← context_QueryStore (context ctx') key storeName;
      match q with
      | (Some res, height, err) => mret (Some (Some res, height, err))
      | (None, _, _) => mret None
      end
  end.

Definition QueryStore (ctx : RestContext) (key storeName : string)
    : RM (option bytes * Z * option goerror) :=
  match request ctx with
  | None => crash "invalid memory address or nil pointer dereference"
  | Some req =>
    let flag := FormValue req FlagPreviousHeight in
    let '(requestPrevState, err) :=
      if (0 <? String.length flag)%nat then ParseBool (Quote be) flag
      else (false, None) in
    match err with
    | Some err => mret (None, 0%Z, Some err)
    | None =>
      early ←
        (if requestPrevState then previousHeightBlock ctx key storeName
         else mret None);
      match early with
      | Some returned => mret returned
      | None => context_QueryStore (WithHeight (context ctx) 0) key storeName
      end
    end
  end.

Definition RespondWithHeight (ctx : RestContext) (out : option bytes) (height : Z)
    : RM unit :=
  let ctx := set_context ctx (WithHeight (context ctx) height) in
  sdk_PostProcessResponse (responseWriter ctx) (context ctx) out.

Definition QueryWithData (ctx : RestContext) (path : string) (data : string)
    : RM (option bytes * Z * option goerror) :=
  match MustMarshalJSON be data with
  | None => crash "MustMarshalJSON"
  | Some bz => context_QueryWithData (context ctx) path bz
  end.

Definition QueryList (ctx : RestContext) (path : string) (params : string) : RM unit :=
  '(res, height, err) ← QueryWithData ctx path params;
  match err with
  | Some err =>
      sdk_WriteErrorResponse (responseWriter ctx) StatusNotFound (Error err)
  | None => RespondWithHeight ctx res height
  end.

Definition EncodeAndRespondWithHeight (ctx : RestContext) (data : string) (height : Z)
    : RM unit :=
  match json_Marshal be data with
  | Failed err =>
      sdk_WriteErrorResponse (responseWriter ctx) StatusInternalServerError (Error err)
  | Got out => RespondWithHeight ctx (Some out) height
  end.

Definition SignMessage (ctx : RestContext) (chainId name passphrase : string)
    (msg : list Msg) : RM (option bytes * option goerror) :=
  tell (AccountFetched (signer ctx));;
  match GetAccount be (signer ctx) with
  | Failed err => mret (None, Some err)
  | Got (accountNumber, sequence) =>
      tell (Signed chainId name passphrase msg);;
      match BuildAndSign be chainId accountNumber sequence name passphrase msg with
      | Failed err => mret (None, Some err)
      | Got bz => mret (Some bz, None)
      end
  end.

Definition BroadcastMessage (ctx : RestContext) (message : bytes)
    : RM (option bytes * option goerror) :=
  let ctx := set_context ctx (set_BroadcastMode (context ctx) "block") in
  tell (Broadcast (BroadcastMode (context ctx)) message);;
  match BroadcastTx be (BroadcastMode (context ctx)) message with
  | Failed err => mret (None, Some err)
  | Got res =>
      match MarshalJSON be res with
      | Failed err => mret (None, Some err)
      | Got txBytes => mret (Some txBytes, None)
      end
  end.

Definition SignAndBroadcastMessage (ctx : RestContext)
    (chainId account passphrase : string) (msg : list Msg)
    : RM (option bytes * option goerror) :=
  '(signedMsg, err) ← SignMessage ctx chainId account passphrase msg;
  match err with
  | Some err => mret (None, Some err)
  | None => BroadcastMessage ctx (default "" signedMsg)
  end.

Definition HandleWriteRequest (ctx : RestContext) (msg : Msg) : RM unit :=
  match ValidateBasic be msg with
  | Some err =>
      sdk_WriteErrorResponse (responseWriter ctx) StatusBadRequest (Error err)
  | None =>
    match request ctx with
    | None => crash "invalid memory address or nil pointer dereference"
    | Some req =>
    match GetCredentialsFromRequest be req with
    | Failed _ =>
        sdk_WriteGenerateStdTxResponse (responseWriter ctx) (baseReq ctx) [msg]
    | Got (account, passphrase) =>
        '(res, err) ←
          SignAndBroadcastMessage ctx (ChainID (baseReq ctx)) account passphrase [msg];
        match err with
        | Some err =>
            sdk_WriteErrorResponse (responseWriter ctx) StatusInternalServerError
              (Error err)
        | None => sdk_PostProcessResponse (responseWriter ctx) (context ctx) res
        end
    end
    end
  end.
End Methods.

End rest.

(** ** A node and a store for the examples *)

Module RestCases.

(** A store that has the key at heights 0 and 41 and nothing elsewhere. *)
Definition store (height : Z) (key storeName : string)
    : option bytes * Z * option rest.goerror :=
  if (height =? 0)%Z then (Some "latest", 42%Z, None)
  else if (height =? 41)%Z then (Some "former", 41%Z, None)
  else (None, height, Some {| rest.Error := "no state at that height" |}).

Definition be : rest.Backend :=
  {| rest.Quote s := String "034" (s +:+ String "034" "");
     rest.StoreQuery := store;
     rest.DataQuery height path data :=
       if (path =? "custom/model/all")%string then (Some "[]", 42%Z, None)
       else (None, 0%Z, Some {| rest.Error := "unknown query path" |});
     rest.MustMarshalJSON data := Some data;
     rest.json_Marshal data := rest.Got data;
     rest.AccAddressFromBech32 str :=
       if (str =? "")%string then rest.Failed {| rest.Error := "empty address string" |}
       else rest.Got str;
     rest.GetAccount addr := rest.Got (7%N, 3%N);
     rest.BuildAndSign chainId accountNumber sequence name passphrase msgs :=
       if (passphrase =? "secret")%string then rest.Got ("signed by " +:+ name)
       else rest.Failed {| rest.Error := "invalid passphrase" |};
     rest.BroadcastTx mode tx := rest.Got ("committed " +:+ tx);
     rest.MarshalJSON res := rest.Got res;
     rest.MarshalResponseWithHeight height body := rest.Got (default "null" body);
     rest.ValidateBasic msg :=
       match msg with
       | CreateValidator _ => None
       | OtherMsg _ => Some {| rest.Error := "unknown message" |}
       end;
     rest.GetCredentialsFromRequest req :=
       match rest.Form req !! "user", rest.Form req !! "password" with
       | Some (u :: _), Some (p :: _) => rest.Got (u, p)
       | _, _ => rest.Failed {| rest.Error := "no credentials" |}
       end |}.

(** A context for writer ["w"] on a node at height [latest], whose request
    carries the given form. *)
Definition ctx (latest : Z) (form : gmap string (list string)) : rest.RestContext :=
  {| rest.context :=
       {| rest.Client := Some {| rest.Status := rest.Got latest |};
          rest.Height := 0; rest.BroadcastMode := "sync" |};
     rest.responseWriter := Some "w";
     rest.request := Some {| rest.Form := form |};
     rest.baseReq := {| rest.From := "addr1"; rest.ChainID := "zbl" |};
     rest.signer := "addr1" |}.

(** The same without a node. *)
Definition offline (form : gmap string (list string)) : rest.RestContext :=
  rest.set_context (ctx 0 form)
    {| rest.Client := None; rest.Height := 0; rest.BroadcastMode := "sync" |}.

Definition createValidator : Msg :=
  CreateValidator {| Signer := "addr1"; Descr := {| Name := "alice" |} |}.

End RestCases.

(** * Examples *)

Example Ext_json : filepath.Ext "gentxs/v1.json" = ".json".
Proof. reflexivity. Qed.
Example Ext_last_dot : filepath.Ext "gentxs/v1.json.bak" = ".bak".
Proof. reflexivity. Qed.
Example Ext_no_dot : filepath.Ext "gen.txs/README" = "".
Proof. reflexivity. Qed.
Example Join_three :
  filepath.Join ["/root/.zbld"; "config"; "config.toml"] = "/root/.zbld/config/config.toml".
Proof. reflexivity. Qed.
Example Strings_sorts : sort.Strings ["b@2"; "a@1"; "b@10"] = ["a@1"; "b@10"; "b@2"].
Proof. reflexivity. Qed.
Example Join_none : strings.Join [] "," = "".
Proof. reflexivity. Qed.

(** The first scenario of the specification: two validators, the local
    node is alice. *)
Example scenario_two_validators :
  returned (Scenario.collect Scenario.twoValidators "alice")
  = Ret ([Scenario.txAlice; Scenario.txBob], "nodeB@10.0.0.2:26656", None).
Proof. vm_compute. reflexivity. Qed.

(** The second scenario: the signer of v2.json is no genesis account. *)
Example scenario_unknown_signer :
  returned (Scenario.collect Scenario.withStranger "alice")
  = Ret ([Scenario.txAlice; Scenario.txStranger], "",
         Some (ErrUnknownRequest
           "Error account addr3 not in genesis.json: map[addr1:account addr1 addr2:account addr2]")).
Proof. vm_compute. reflexivity. Qed.

(** A regular file without the suffix is passed over, and not read. *)
Example scenario_notes_skipped :
  Scenario.collect Scenario.withNotes "carol"
  = (Ret ([Scenario.txAlice; Scenario.txBob],
          "nodeA@10.0.0.1:26656,nodeB@10.0.0.2:26656", None),
     [EvReadDir "gentxs"; EvReadFile "gentxs/v1.json"; EvReadFile "gentxs/v2.json"]).
Proof. vm_compute. reflexivity. Qed.

(** * Properties *)

(** ** Byte-wise string order and [sort.Strings] *)

Lemma ascii_compare_Lt_trans (a b c : ascii) :
  Ascii.compare a b = Lt → Ascii.compare b c = Lt → Ascii.compare a c = Lt.
Proof.
  unfold Ascii.compare. rewrite !N.compare_lt_iff. lia.
Qed.

Lemma string_compare_le_trans (s1 s2 s3 : string) :
  String.compare s1 s2 ≠ Gt → String.compare s2 s3 ≠ Gt →
  String.compare s1 s3 ≠ Gt.
Proof.
  revert s2 s3. induction s1 as [|a s1 IH]; intros [|b s2] [|c s3]; simpl; try done.
  destruct (Ascii.compare a b) eqn:Hab; [| |done].
  - apply Ascii.compare_eq_iff in Hab as ->.
    destruct (Ascii.compare b c) eqn:Hbc; [|done..]. apply IH.
  - intros _. destruct (Ascii.compare b c) eqn:Hbc; [| |done].
    + apply Ascii.compare_eq_iff in Hbc as <-. by rewrite Hab.
    + by rewrite (ascii_compare_Lt_trans a b c).
Qed.

Lemma string_le_compare (a b : string) :
  sort.string_le a b ↔ String.compare a b ≠ Gt.
Proof. unfold sort.string_le, String.leb. by destruct (String.compare a b). Qed.

#[global] Instance string_le_trans : Transitive sort.string_le.
Proof.
  intros a b c. rewrite !string_le_compare. apply string_compare_le_trans.
Qed.

#[global] Instance string_le_total : Total sort.string_le.
Proof. intros a b. apply String.leb_total. Qed.

#[global] Instance string_le_antisym : AntiSymm (=) sort.string_le.
Proof. intros a b. apply String.leb_antisym. Qed.

Lemma Strings_Sorted (a : list string) : Sorted sort.string_le (sort.Strings a).
Proof. apply Sorted_merge_sort, _. Qed.

Lemma Strings_Permutation (a : list string) : sort.Strings a ≡ₚ a.
Proof. apply merge_sort_Permutation. Qed.

(** The sorted slice depends on the elements only, not on their order. *)
Lemma Strings_order_independent (a b : list string) :
  a ≡ₚ b → sort.Strings a = sort.Strings b.
Proof.
  intros Hab. apply (Sorted_unique sort.string_le); [apply Strings_Sorted..|].
  by rewrite !Strings_Permutation.
Qed.

(** ** One round of the loop, and the loop *)

Section LoopFacts.
Context (fs : FileSystem) (cdc : Codec) (name genTxsDir : string).
Context (addrMap : gmap string Account).

Local Abbreviation body := (loopBody fs cdc name genTxsDir addrMap).
Local Abbreviation loop := (rangeLoop fs cdc name genTxsDir addrMap).
Local Abbreviation accepts := (accept fs cdc name genTxsDir addrMap).

Ltac run_body :=
  unfold accept, decodedTx, skips, loopBody, ioutil_ReadFile, emit, panic,
    mbind, M_bind, mret, M_ret in *;
  simpl in *;
  repeat (case_match; simplify_eq/=; try done).

Lemma loopBody_shift fo txs addrs :
  body fo txs addrs =
    match body fo [] [] with
    | (Ret (Next dt da), t) => (Ret (Next (txs ++ dt) (addrs ++ da)), t)
    | (Ret (Return dt err), t) => (Ret (Return (txs ++ dt) err), t)
    | (Panic s, t) => (Panic s, t)
    end.
Proof. run_body; by rewrite ?app_nil_r. Qed.

Lemma loopBody_Next fo txs addrs txs' addrs' t :
  body fo txs addrs = (Ret (Next txs' addrs'), t) ↔
  ∃ dt da, accepts fo = Some (dt, da) ∧ txs' = txs ++ dt ∧ addrs' = addrs ++ da
           ∧ t = events (body fo [] []).
Proof.
  rewrite loopBody_shift. unfold accept, events.
  destruct (body fo [] []) as [[[dt da|dt err]|s] t0]; simpl.
  - split; [intros [= <- <- <-]; by exists dt, da|].
    by intros (? & ? & [= <- <-] & -> & -> & ->).
  - split; [done|]. by intros (? & ? & ? & _).
  - split; [done|]. by intros (? & ? & ? & _).
Qed.

(** The events of one round: the entry is read unless it is skipped. *)
Lemma loopBody_events fo txs addrs :
  events (body fo txs addrs) =
    if skips genTxsDir fo then []
    else [EvReadFile (filepath.Join [genTxsDir; FileName fo])].
Proof. unfold events. run_body. Qed.

Lemma memo_empty (s : string) : (String.length s =? 0)%nat = true ↔ s = "".
Proof. by destruct s. Qed.

Lemma single_message (msgs : list Msg) :
  negb (length msgs =? 1)%nat = false ↔ ∃ m, msgs = [m].
Proof.
  destruct msgs as [|m [|m' msgs]]; simpl; split; try done.
  - by intros [? ?].
  - by exists m.
  - by intros [? ?].
Qed.

(** What an accepted entry is. *)
Lemma accept_Some fo dt da :
  accepts fo = Some (dt, da) ↔
  (skips genTxsDir fo = true ∧ dt = [] ∧ da = []) ∨
  (∃ tx msg,
     decodedTx fs cdc genTxsDir fo = Some tx ∧
     GetMemo tx ≠ "" ∧
     GetMsgs tx = [CreateValidator msg] ∧
     is_Some (addrMap !! sdk.String (Signer msg)) ∧
     dt = [tx] ∧
     da = if decide (Name (Descr msg) = name) then [] else [GetMemo tx]).
Proof.
  unfold accept, decodedTx, skips, loopBody.
  destruct (negb (IsDir fo) && _) eqn:Hskip; simpl.
  { split; [intros [= <- <-]; by left|].
    by intros [(_ & -> & ->)|(? & ? & ? & _)]. }
  destruct (ReadFile fs _) as [raw|e]; simpl;
    [|split; [done|by intros [(? & _)|(? & ? & ? & _)]]].
  destruct (UnmarshalStdTx cdc raw) as [tx|e]; simpl;
    [|split; [done|by intros [(? & _)|(? & ? & ? & _)]]].
  destruct (String.length (GetMemo tx) =? 0)%nat eqn:Hmemo; simpl.
  { apply memo_empty in Hmemo. split; [done|].
    intros [(? & _)|(? & ? & [= <-] & ? & _)]; done. }
  assert (GetMemo tx ≠ "") as Hne
    by (intros ?%memo_empty; congruence).
  destruct (negb (length (GetMsgs tx) =? 1)%nat) eqn:Hlen; simpl.
  { split; [done|]. intros [(? & _)|(? & ? & [= <-] & _ & Hm & _)]; [done|].
    by rewrite Hm in Hlen. }
  apply single_message in Hlen as [m Hm]. rewrite Hm.
  destruct m as [msg|route]; simpl;
    [|split; [done|];
      intros [(? & _)|(? & ? & [= <-] & _ & ? & _)]; congruence].
  destruct (addrMap !! sdk.String (Signer msg)) as [acc|] eqn:Hacc; simpl.
  - destruct (String.eqb_spec (Name (Descr msg)) name) as [Heq|Hneq]; simpl.
    all: split;
      [intros [= <- <-]; right; exists tx, msg; rewrite Hacc;
       split_and!; [done..|]
      |intros [(? & _)|(? & msg' & [= <-] & _ & Hm' & _ & -> & ->)]; [done|];
       assert (msg' = msg) as -> by congruence].
    all: by rewrite ?decide_True, ?decide_False by done.
  - split; [done|].
    intros [(? & _)|(? & msg' & [= <-] & _ & Hm' & [? Hin] & _)]; [done|].
    assert (msg' = msg) as -> by congruence. congruence.
Qed.

Lemma rangeLoop_cons fo rest txs addrs :
  loop (fo :: rest) txs addrs =
    match body fo txs addrs with
    | (Ret (Next txs1 addrs1), t1) =>
        let '(r, t2) := loop rest txs1 addrs1 in (r, t1 ++ t2)
    | (Ret (Return txs1 err), t1) => (Ret (Return txs1 err), t1)
    | (Panic s, t1) => (Panic s, t1)
    end.
Proof.
  simpl. unfold mbind, M_bind.
  destruct (body fo txs addrs) as [[[?|?]|?] ?]; [done| |done].
  simpl. by rewrite app_nil_r.
Qed.

(** A prefix of entries that falls through hands its slices to the rest
    of the listing. *)
Lemma rangeLoop_app pre rest txs addrs txs1 addrs1 t1 :
  loop pre txs addrs = (Ret (Next txs1 addrs1), t1) →
  loop (pre ++ rest) txs addrs =
    (let '(r, t2) := loop rest txs1 addrs1 in (r, t1 ++ t2)).
Proof.
  revert txs addrs t1. induction pre as [|fo pre IH]; intros txs addrs t1.
  - intros [= <- <- <-]. simpl. by destruct (loop rest txs addrs).
  - rewrite <- app_comm_cons, !rangeLoop_cons.
    destruct (body fo txs addrs) as [[[txs0 addrs0|]|] t0]; [|done..].
    destruct (loop pre txs0 addrs0) as [r t2] eqn:Hpre.
    intros [= -> <-]. rewrite (IH _ _ _ Hpre).
    destruct (loop rest txs1 addrs1). by rewrite app_assoc.
Qed.

(** The loop runs to its end exactly when every entry is accepted; the
    slices then hold what the entries add, in listing order. *)
Lemma rangeLoop_Next fos txs addrs txs' addrs' t :
  loop fos txs addrs = (Ret (Next txs' addrs'), t) ↔
  Forall (λ fo, is_Some (accepts fo)) fos ∧
  txs' = txs ++ (fos ≫= txsOf fs cdc name genTxsDir addrMap) ∧
  addrs' = addrs ++ (fos ≫= addrsOf fs cdc name genTxsDir addrMap) ∧
  t = fos ≫= (λ fo, events (body fo [] [])).
Proof.
  revert txs addrs txs' addrs' t.
  induction fos as [|fo fos IH]; intros txs addrs txs' addrs' t.
  - simpl. rewrite !app_nil_r. split; [by intros [= -> -> <-]|].
    by intros (_ & -> & -> & ->).
  - rewrite rangeLoop_cons, Forall_cons. cbn [mbind list_bind].
    unfold txsOf at 1, addrsOf at 1.
    destruct (body fo txs addrs) as [[[txs0 addrs0|txs0 err]|s] t0] eqn:Hbody.
    + apply loopBody_Next in Hbody as (dt & da & Hacc & -> & -> & ->).
      rewrite Hacc. simpl.
      split.
      * destruct (loop fos _ _) as [r t2] eqn:Hloop.
        intros [= -> <-]. apply IH in Hloop as (? & -> & -> & ->).
        by rewrite <- !app_assoc.
      * intros ((_ & Hall) & -> & -> & ->).
        rewrite (proj2 (IH (txs ++ dt) (addrs ++ da) _ _ _)
                   (conj Hall (conj eq_refl (conj eq_refl eq_refl)))).
        by rewrite <- !app_assoc.
    + split; [done|]. intros ((Hacc & _) & _). revert Hacc.
      rewrite loopBody_shift in Hbody. unfold accept.
      destruct (body fo [] []) as [[[]|] ?]; simplify_eq/=. by intros [? ?].
    + split; [done|]. intros ((Hacc & _) & _). revert Hacc.
      rewrite loopBody_shift in Hbody. unfold accept.
      destruct (body fo [] []) as [[[]|] ?]; simplify_eq/=. by intros [? ?].
Qed.

(** An accepted entry adds the transaction it decodes to, if any. *)
Lemma txsOf_decoded fo :
  is_Some (accepts fo) →
  txsOf fs cdc name genTxsDir addrMap fo =
    option_list (decodedTx fs cdc genTxsDir fo).
Proof.
  intros [[dt da] Hacc]. unfold txsOf. rewrite Hacc. simpl.
  apply accept_Some in Hacc as [(Hs & -> & _)|(tx & msg & -> & _ & _ & _ & -> & _)];
    [|done].
  unfold decodedTx. by rewrite Hs.
Qed.

(** An accepted entry adds the memo of its transaction unless the
    transaction is the local node's own. *)
Lemma addrsOf_others fo :
  is_Some (accepts fo) →
  addrsOf fs cdc name genTxsDir addrMap fo =
    GetMemo <$> others name (txsOf fs cdc name genTxsDir addrMap fo).
Proof.
  intros [[dt da] Hacc]. unfold txsOf, addrsOf, others. rewrite Hacc. simpl.
  apply accept_Some in Hacc as [(_ & -> & ->)|(tx & msg & _ & _ & Hm & _ & -> & ->)];
    [done|].
  assert (validatorName tx = Some (Name (Descr msg))) as Hname
    by (unfold validatorName; by rewrite Hm).
  destruct (decide (Name (Descr msg) = name)) as [Heq|Hneq].
  - rewrite filter_cons_False; [done|]. rewrite Hname, Heq. by intros [].
  - rewrite filter_cons_True; [done|]. rewrite Hname. congruence.
Qed.

Lemma collected_decoded fos :
  Forall (λ fo, is_Some (accepts fo)) fos →
  fos ≫= txsOf fs cdc name genTxsDir addrMap = omap (decodedTx fs cdc genTxsDir) fos.
Proof.
  induction 1 as [|fo fos Hfo _ IH]; [done|].
  cbn [mbind list_bind omap list_omap]. rewrite IH, txsOf_decoded by done.
  by destruct (decodedTx fs cdc genTxsDir fo).
Qed.

Lemma collected_others fos :
  Forall (λ fo, is_Some (accepts fo)) fos →
  fos ≫= addrsOf fs cdc name genTxsDir addrMap =
    GetMemo <$> others name (fos ≫= txsOf fs cdc name genTxsDir addrMap).
Proof.
  induction 1 as [|fo fos Hfo _ IH]; [done|].
  cbn [mbind list_bind]. unfold others in *.
  by rewrite filter_app, fmap_app, <- IH, addrsOf_others.
Qed.

(** Every collected transaction of a run that reaches the end of the
    loop passed the three checks. *)
Lemma collected_valid fos :
  Forall (λ fo, is_Some (accepts fo)) fos →
  Forall (validated addrMap) (fos ≫= txsOf fs cdc name genTxsDir addrMap).
Proof.
  induction 1 as [|fo fos [[dt da] Hacc] _ IH]; [done|].
  cbn [mbind list_bind]. apply Forall_app. split; [|done].
  unfold txsOf. rewrite Hacc. simpl.
  apply accept_Some in Hacc as [(_ & -> & _)|(tx & msg & _ & ? & ? & ? & -> & _)];
    [done|].
  apply Forall_singleton. unfold validated. eauto.
Qed.

(** *** One round, by what the entry decodes to *)

Lemma loopBody_skipped fo txs addrs :
  skips genTxsDir fo = true → body fo txs addrs = (Ret (Next txs addrs), []).
Proof. unfold skips, loopBody. by intros ->. Qed.

Lemma loopBody_read_error fo txs addrs e :
  skips genTxsDir fo = false →
  ReadFile fs (filepath.Join [genTxsDir; FileName fo]) = Err e →
  body fo txs addrs =
    (Ret (Return txs e), [EvReadFile (filepath.Join [genTxsDir; FileName fo])]).
Proof. unfold skips, loopBody, ioutil_ReadFile. by intros -> ->. Qed.

Lemma decodedTx_Some fo tx :
  decodedTx fs cdc genTxsDir fo = Some tx ↔
  skips genTxsDir fo = false ∧
  ∃ raw, ReadFile fs (filepath.Join [genTxsDir; FileName fo]) = Ok raw ∧
         UnmarshalStdTx cdc raw = Ok tx.
Proof.
  unfold decodedTx. destruct (skips genTxsDir fo).
  { split; [done|]. by intros [? _]. }
  destruct (ReadFile fs _) as [raw|].
  2:{ split; [done|]. by intros (_ & ? & ? & _). }
  destruct (UnmarshalStdTx cdc raw) as [tx'|] eqn:Hdecode.
  - split; [intros [= <-]; eauto|]. intros (_ & ? & [= <-] & ?). congruence.
  - split; [done|]. intros (_ & ? & [= <-] & ?). congruence.
Qed.

Ltac decoded_round Hdec :=
  let Hskip := fresh "Hskip" in
  let Hread := fresh "Hread" in
  let Hdecode := fresh "Hdecode" in
  apply decodedTx_Some in Hdec as (Hskip & ? & Hread & Hdecode);
  unfold loopBody, ioutil_ReadFile; unfold skips in Hskip;
  rewrite Hskip; simpl; rewrite Hread; simpl; rewrite Hdecode; simpl.

Lemma loopBody_no_memo fo tx txs addrs :
  decodedTx fs cdc genTxsDir fo = Some tx →
  GetMemo tx = "" →
  body fo txs addrs =
    (Ret (Return (txs ++ [tx]) (ErrUnknownRequest
       ("couldn't find node's address and IP in " +:+ FileName fo))),
     [EvReadFile (filepath.Join [genTxsDir; FileName fo])]).
Proof. intros Hdec Hmemo. decoded_round Hdec. by rewrite Hmemo. Qed.

Lemma loopBody_not_single fo tx txs addrs :
  decodedTx fs cdc genTxsDir fo = Some tx →
  GetMemo tx ≠ "" →
  length (GetMsgs tx) ≠ 1 →
  body fo txs addrs =
    (Ret (Return (txs ++ [tx]) (ErrUnknownRequest
       "each genesis transaction must provide a single genesis message")),
     [EvReadFile (filepath.Join [genTxsDir; FileName fo])]).
Proof.
  intros Hdec Hmemo Hlen. decoded_round Hdec.
  destruct (String.length (GetMemo tx) =? 0)%nat eqn:Hm;
    [by apply memo_empty in Hm|].
  by destruct (Nat.eqb_spec (length (GetMsgs tx)) 1).
Qed.

Lemma loopBody_other_kind fo tx route txs addrs :
  decodedTx fs cdc genTxsDir fo = Some tx →
  GetMemo tx ≠ "" →
  GetMsgs tx = [OtherMsg route] →
  body fo txs addrs =
    (Panic "interface conversion: sdk.Msg is not validator.MsgCreateValidator",
     [EvReadFile (filepath.Join [genTxsDir; FileName fo])]).
Proof.
  intros Hdec Hmemo Hmsgs. decoded_round Hdec.
  destruct (String.length (GetMemo tx) =? 0)%nat eqn:Hm;
    [by apply memo_empty in Hm|].
  by rewrite Hmsgs.
Qed.

Lemma loopBody_unknown_signer fo tx msg txs addrs :
  decodedTx fs cdc genTxsDir fo = Some tx →
  GetMemo tx ≠ "" →
  GetMsgs tx = [CreateValidator msg] →
  addrMap !! sdk.String (Signer msg) = None →
  body fo txs addrs =
    (Ret (Return (txs ++ [tx]) (ErrUnknownRequest
       ("Error account " +:+ sdk.String (Signer msg) +:+
        " not in genesis.json: " +:+ Sprint_addrMap addrMap))),
     [EvReadFile (filepath.Join [genTxsDir; FileName fo])]).
Proof.
  intros Hdec Hmemo Hmsgs Hacc. decoded_round Hdec.
  destruct (String.length (GetMemo tx) =? 0)%nat eqn:Hm;
    [by apply memo_empty in Hm|].
  rewrite Hmsgs. simpl. unfold sdk.String in *. by rewrite Hacc.
Qed.
End LoopFacts.

(** ** The whole of [CollectStdTxs] *)

Section CollectFacts.
Context (fs : FileSystem) (cdc : Codec) (name genTxsDir : string).
Context (genDoc : GenesisDoc) (genAccIterator : GenesisAccountsIterator).

Local Abbreviation collect :=
  (CollectStdTxs fs cdc name genTxsDir genDoc genAccIterator).

(** Once the listing and the account index are there, the function is
    its loop followed by the sort and the join. *)
Lemma CollectStdTxs_run fos addrMap :
  ReadDir fs genTxsDir = Ok fos →
  addrMapOf cdc genDoc genAccIterator = Some addrMap →
  collect =
    match rangeLoop fs cdc name genTxsDir addrMap fos [] [] with
    | (Ret (Next txs addrs), t) =>
        (Ret (txs, strings.Join (sort.Strings addrs) ",", None),
         EvReadDir genTxsDir :: t)
    | (Ret (Return txs err), t) =>
        (Ret (txs, "", Some err), EvReadDir genTxsDir :: t)
    | (Panic s, t) => (Panic s, EvReadDir genTxsDir :: t)
    end.
Proof.
  unfold addrMapOf, CollectStdTxs, ioutil_ReadDir. intros -> Hmap. simpl.
  destruct (UnmarshalAppState cdc (AppState genDoc)) as [appState|]; [|done].
  injection Hmap as ->. unfold mbind, M_bind.
  destruct (rangeLoop _ _ _ _ _ _ _ _) as [[[]|] ?]; simpl;
    by rewrite ?app_nil_r.
Qed.

(** A run that returns no error got a listing and an index, and its loop
    ran to the end. *)
Lemma CollectStdTxs_success txs peers :
  returned collect = Ret (txs, peers, None) →
  ∃ fos addrMap addrs t,
    ReadDir fs genTxsDir = Ok fos ∧
    addrMapOf cdc genDoc genAccIterator = Some addrMap ∧
    rangeLoop fs cdc name genTxsDir addrMap fos [] [] = (Ret (Next txs addrs), t) ∧
    peers = strings.Join (sort.Strings addrs) ",".
Proof.
  destruct (ReadDir fs genTxsDir) as [fos|e] eqn:Hdir.
  2:{ unfold CollectStdTxs, ioutil_ReadDir. by rewrite Hdir. }
  destruct (addrMapOf cdc genDoc genAccIterator) as [addrMap|] eqn:Hmap.
  2:{ unfold CollectStdTxs, ioutil_ReadDir, addrMapOf in *. rewrite Hdir. simpl.
      by destruct (UnmarshalAppState cdc (AppState genDoc)). }
  rewrite (CollectStdTxs_run fos addrMap) by done.
  destruct (rangeLoop _ _ _ _ _ _ _ _) as [[[txs' addrs|]|] t] eqn:Hloop; [|done..].
  intros [= <- <-]. by exists fos, addrMap, addrs, t.
Qed.

(** What a successful run returns, in terms of the listing. *)
Lemma CollectStdTxs_returns txs peers :
  returned collect = Ret (txs, peers, None) →
  ∃ fos addrMap,
    ReadDir fs genTxsDir = Ok fos ∧
    addrMapOf cdc genDoc genAccIterator = Some addrMap ∧
    Forall (validated addrMap) txs ∧
    txs = omap (decodedTx fs cdc genTxsDir) fos ∧
    peers = strings.Join (sort.Strings (GetMemo <$> others name txs)) ",".
Proof.
  intros (fos & addrMap & addrs & t & Hdir & Hmap & Hloop & ->)%CollectStdTxs_success.
  apply rangeLoop_Next in Hloop as (Hall & -> & -> & _). simpl.
  exists fos, addrMap. split_and!; [done..| | |].
  - by apply collected_valid.
  - by apply collected_decoded.
  - by rewrite collected_others.
Qed.

(** The run from an entry that the loop gets to. *)
Lemma CollectStdTxs_arrives addrMap fo sofar :
  arrives fs cdc name genTxsDir genDoc genAccIterator addrMap fo sofar →
  ∃ addrs post t,
    collect =
      match loopBody fs cdc name genTxsDir addrMap fo sofar addrs with
      | (Ret (Next txs1 addrs1), t1) =>
          match rangeLoop fs cdc name genTxsDir addrMap post txs1 addrs1 with
          | (Ret (Next txs addrs), t2) =>
              (Ret (txs, strings.Join (sort.Strings addrs) ",", None),
               EvReadDir genTxsDir :: t ++ t1 ++ t2)
          | (Ret (Return txs err), t2) =>
              (Ret (txs, "", Some err), EvReadDir genTxsDir :: t ++ t1 ++ t2)
          | (Panic s, t2) => (Panic s, EvReadDir genTxsDir :: t ++ t1 ++ t2)
          end
      | (Ret (Return txs err), t1) =>
          (Ret (txs, "", Some err), EvReadDir genTxsDir :: t ++ t1)
      | (Panic s, t1) => (Panic s, EvReadDir genTxsDir :: t ++ t1)
      end.
Proof.
  intros (pre & post & addrs & t & Hdir & Hmap & Hpre).
  exists addrs, post, t. rewrite (CollectStdTxs_run _ _ Hdir Hmap).
  rewrite (rangeLoop_app _ _ _ _ _ _ _ _ _ _ _ _ Hpre), rangeLoop_cons.
  destruct (loopBody _ _ _ _ _ _ _ _) as [[[txs1 addrs1|]|] t1]; [|done..].
  by destruct (rangeLoop _ _ _ _ _ post _ _) as [[[]|] ?].
Qed.
End CollectFacts.

(** ** [strings.Contains] *)

Lemma append_cons (c : ascii) (s rest : string) :
  String c s +:+ rest = String c (s +:+ rest).
Proof. reflexivity. Qed.

Lemma prefix_append (s rest : string) : String.prefix s (s +:+ rest) = true.
Proof.
  induction s as [|c s IH]; [by destruct rest|].
  rewrite append_cons. simpl. by destruct (ascii_dec c c).
Qed.

Lemma Contains_prefix (str s : string) :
  String.prefix s str = true → Contains str s = true.
Proof. destruct str; simpl; by intros ->. Qed.

Lemma Contains_append_l (s after : string) : Contains (s +:+ after) s = true.
Proof. apply Contains_prefix, prefix_append. Qed.

Lemma Contains_refl (s : string) : Contains s s = true.
Proof.
  apply Contains_prefix. induction s as [|c s IH]; [done|].
  simpl. by destruct (ascii_dec c c).
Qed.

Lemma Contains_append_r (before str s : string) :
  Contains str s = true → Contains (before +:+ str) s = true.
Proof.
  intros Hstr. induction before as [|c before IH]; [done|].
  rewrite append_cons. simpl. rewrite IH. apply orb_true_r.
Qed.

(** * The claims *)

(** C7 — single-message invariant.  When the run gets to a transaction
    file that decodes to a transaction with a non-empty memo and with no
    embedded message, or with two or more, [CollectStdTxs] returns at that
    entry with the validation error
    "each genesis transaction must provide a single genesis message"
    ([sdk.ErrUnknownRequest]) and an empty peer string; the entries after
    it are not looked at. *)
Theorem C7_single_message_invariant
    fs cdc name genTxsDir genDoc genAccIterator addrMap fo tx sofar :
  reaches fs cdc name genTxsDir genDoc genAccIterator addrMap fo tx sofar →
  GetMemo tx ≠ "" →
  length (GetMsgs tx) ≠ 1 →
  returned (CollectStdTxs fs cdc name genTxsDir genDoc genAccIterator) =
    Ret (sofar ++ [tx], "",
         Some (ErrUnknownRequest
                 "each genesis transaction must provide a single genesis message")).
Proof.
  intros [(addrs & post & t & ->)%CollectStdTxs_arrives Hdec] Hmemo Hlen.
  by rewrite (loopBody_not_single _ _ _ _ _ _ tx).
Qed.

Lemma C7_witness_two_messages :
  returned (Scenario.collect Scenario.withTwoMsgs "alice")
  = Ret ([Scenario.txAlice; Scenario.txTwoMsgs], "",
         Some (ErrUnknownRequest
                 "each genesis transaction must provide a single genesis message")).
Proof.
  apply (C7_single_message_invariant _ _ _ _ _ _ Scenario.index
           (Scenario.entry "v2.json") Scenario.txTwoMsgs [Scenario.txAlice]).
  - split; [|vm_compute; reflexivity].
    exists [Scenario.entry "v1.json"], [Scenario.entry "v3.json"], [],
           [EvReadFile "gentxs/v1.json"].
    split_and!; vm_compute; reflexivity.
  - discriminate.
  - simpl. lia.
Defined.

(** C8 (as amended) — referential integrity.  When the run gets to a
    transaction with a non-empty memo whose single message is a
    validator-creation message signed by an address that is no key of the
    account index, [CollectStdTxs] returns at that entry with an
    [sdk.ErrUnknownRequest] whose text is
    "Error account <address> not in genesis.json: <index>"; the text
    contains the address and the rendering of the whole index, and the run
    does not go on without the transaction. *)
Theorem C8_unknown_signer_is_reported
    fs cdc name genTxsDir genDoc genAccIterator addrMap fo tx msg sofar :
  reaches fs cdc name genTxsDir genDoc genAccIterator addrMap fo tx sofar →
  GetMemo tx ≠ "" →
  GetMsgs tx = [CreateValidator msg] →
  addrMap !! sdk.String (Signer msg) = None →
  ∃ text,
    returned (CollectStdTxs fs cdc name genTxsDir genDoc genAccIterator) =
      Ret (sofar ++ [tx], "", Some (ErrUnknownRequest text)) ∧
    text = "Error account " +:+ sdk.String (Signer msg) +:+
           " not in genesis.json: " +:+ Sprint_addrMap addrMap ∧
    Contains text (sdk.String (Signer msg)) = true ∧
    Contains text (Sprint_addrMap addrMap) = true.
Proof.
  intros [(addrs & post & t & ->)%CollectStdTxs_arrives Hdec] Hmemo Hmsgs Hacc.
  rewrite (loopBody_unknown_signer _ _ _ _ _ _ tx msg) by done.
  eexists. split_and!; [done..| |].
  - apply Contains_append_r, Contains_append_l.
  - do 3 apply Contains_append_r. apply Contains_refl.
Qed.

Lemma C8_witness_stranger :
  ∃ text,
    returned (Scenario.collect Scenario.withStranger "alice")
    = Ret ([Scenario.txAlice; Scenario.txStranger], "",
           Some (ErrUnknownRequest text)) ∧
    text = "Error account addr3 not in genesis.json: " +:+
           "map[addr1:account addr1 addr2:account addr2]" ∧
    Contains text "addr3" = true ∧
    Contains text (Sprint_addrMap Scenario.index) = true.
Proof.
  apply (C8_unknown_signer_is_reported _ _ _ _ _ _ Scenario.index
           (Scenario.entry "v2.json") Scenario.txStranger
           {| Signer := "addr3"; Descr := {| Name := "bob" |} |}
           [Scenario.txAlice]).
  - split; [|vm_compute; reflexivity].
    exists [Scenario.entry "v1.json"], [], [], [EvReadFile "gentxs/v1.json"].
    split_and!; vm_compute; reflexivity.
  - discriminate.
  - reflexivity.
  - vm_compute. reflexivity.
Defined.

(** The claim as first stated fails when the memo is empty: the signer of
    the only transaction is no genesis account, and the error that comes
    back is the one about the missing node address, which names the file
    and not the signer. *)
Lemma C8_counterexample_empty_memo :
  reaches Scenario.strangerNoMemo Scenario.cdc "alice" "gentxs" Scenario.genDoc
    (Scenario.accounts ["addr1"; "addr2"]) Scenario.index
    (Scenario.entry "v2.json") Scenario.txStrangerNoMemo [] ∧
  GetMsgs Scenario.txStrangerNoMemo =
    [CreateValidator {| Signer := "addr3"; Descr := {| Name := "bob" |} |}] ∧
  Scenario.index !! "addr3" = None ∧
  returned (Scenario.collect Scenario.strangerNoMemo "alice")
    = Ret ([Scenario.txStrangerNoMemo], "",
           Some (ErrUnknownRequest "couldn't find node's address and IP in v2.json")) ∧
  Contains "couldn't find node's address and IP in v2.json" "addr3" = false.
Proof.
  split_and!; [|vm_compute; reflexivity..].
  split; [|vm_compute; reflexivity].
  exists [], [], [], []. split_and!; vm_compute; reflexivity.
Qed.

(** C2 — message kind.  When the run gets to a transaction with a
    non-empty memo whose single message is not a validator-creation
    message, the unchecked type assertion [msgs[0].(validator.MsgCreateValidator)]
    panics: [CollectStdTxs] does not return, neither a validation error nor
    anything else. *)
Theorem C2_other_message_kind_panics
    fs cdc name genTxsDir genDoc genAccIterator addrMap fo tx route sofar :
  reaches fs cdc name genTxsDir genDoc genAccIterator addrMap fo tx sofar →
  GetMemo tx ≠ "" →
  GetMsgs tx = [OtherMsg route] →
  returned (CollectStdTxs fs cdc name genTxsDir genDoc genAccIterator) =
    Panic "interface conversion: sdk.Msg is not validator.MsgCreateValidator".
Proof.
  intros [(addrs & post & t & ->)%CollectStdTxs_arrives Hdec] Hmemo Hmsgs.
  by rewrite (loopBody_other_kind _ _ _ _ _ _ tx route).
Qed.

Lemma C2_witness_bank_message :
  returned (Scenario.collect Scenario.withBank "alice")
  = Panic "interface conversion: sdk.Msg is not validator.MsgCreateValidator".
Proof.
  apply (C2_other_message_kind_panics _ _ _ _ _ _ Scenario.index
           (Scenario.entry "v2.json") Scenario.txBank "bank" [Scenario.txAlice]).
  - split; [|vm_compute; reflexivity].
    exists [Scenario.entry "v1.json"], [], [], [EvReadFile "gentxs/v1.json"].
    split_and!; vm_compute; reflexivity.
  - discriminate.
  - reflexivity.
Defined.

(** The part of the scan that works as intended: a regular file whose
    name lacks the suffix is passed over without being read. *)
Lemma regular_file_without_suffix_skipped
    fs cdc name genTxsDir addrMap fo txs addrs :
  IsDir fo = false →
  filepath.Ext (filepath.Join [genTxsDir; FileName fo]) ≠ ".json" →
  loopBody fs cdc name genTxsDir addrMap fo txs addrs = (Ret (Next txs addrs), []).
Proof.
  intros Hdir Hext. apply loopBody_skipped. unfold skips. rewrite Hdir. simpl.
  by destruct (String.eqb_spec (filepath.Ext (filepath.Join [genTxsDir; FileName fo])) ".json").
Qed.

(** A regular file with the suffix is read. *)
Lemma regular_file_with_suffix_read
    fs cdc name genTxsDir addrMap fo txs addrs :
  filepath.Ext (filepath.Join [genTxsDir; FileName fo]) = ".json" →
  events (loopBody fs cdc name genTxsDir addrMap fo txs addrs) =
    [EvReadFile (filepath.Join [genTxsDir; FileName fo])].
Proof.
  intros Hext. rewrite loopBody_events. unfold skips. rewrite Hext.
  by rewrite andb_false_r.
Qed.

(** C3 — directory scan.  A subdirectory is not passed over: when the run
    gets to an entry that is a directory, whatever its name, the entry is
    handed to [ioutil.ReadFile], and when that read fails, as reading a
    directory does, its error ends the run.  (Only regular files without
    the suffix are skipped, see [regular_file_without_suffix_skipped].) *)
Theorem C3_subdirectory_is_read
    fs cdc name genTxsDir genDoc genAccIterator addrMap fo sofar :
  arrives fs cdc name genTxsDir genDoc genAccIterator addrMap fo sofar →
  IsDir fo = true →
  EvReadFile (filepath.Join [genTxsDir; FileName fo]) ∈
    events (CollectStdTxs fs cdc name genTxsDir genDoc genAccIterator) ∧
  ∀ e, ReadFile fs (filepath.Join [genTxsDir; FileName fo]) = Err e →
       returned (CollectStdTxs fs cdc name genTxsDir genDoc genAccIterator) =
         Ret (sofar, "", Some e).
Proof.
  intros (addrs & post & t & ->)%CollectStdTxs_arrives Hdir.
  assert (skips genTxsDir fo = false) as Hskip by (unfold skips; by rewrite Hdir).
  split.
  - pose proof (loopBody_events fs cdc name genTxsDir addrMap fo sofar addrs) as Hev.
    rewrite Hskip in Hev. unfold events in *.
    destruct (loopBody _ _ _ _ _ _ _ _) as [[[txs1 addrs1|]|] t1];
      simpl in Hev; subst t1.
    + destruct (rangeLoop _ _ _ _ _ _ _ _) as [[[]|] t2]; simpl;
        rewrite elem_of_cons, elem_of_app, elem_of_cons; auto.
    + simpl. rewrite elem_of_cons, elem_of_app, list_elem_of_singleton. auto.
    + simpl. rewrite elem_of_cons, elem_of_app, list_elem_of_singleton. auto.
  - intros e Hread. by rewrite (loopBody_read_error _ _ _ _ _ _ _ _ e).
Qed.

Lemma C3_witness_archive_directory :
  EvReadFile "gentxs/archive" ∈ events (Scenario.collect Scenario.withSubdir "alice") ∧
  returned (Scenario.collect Scenario.withSubdir "alice")
    = Ret ([Scenario.txAlice], "", Some (ErrIO "is a directory")).
Proof.
  destruct (C3_subdirectory_is_read Scenario.withSubdir Scenario.cdc "alice" "gentxs"
              Scenario.genDoc (Scenario.accounts ["addr1"; "addr2"]) Scenario.index
              {| FileName := "archive"; IsDir := true |} [Scenario.txAlice])
    as [Hread Hstop].
  - exists [Scenario.entry "v1.json"], [Scenario.entry "v2.json"], [],
           [EvReadFile "gentxs/v1.json"].
    split_and!; vm_compute; reflexivity.
  - reflexivity.
  - split; [exact Hread|]. apply Hstop. vm_compute. reflexivity.
Defined.

(** C5 — the peer string.  On a run that returns no error, every
    collected transaction is a validated one, and the peer string is the
    comma-join of a slice that is sorted in byte-wise string order and
    holds exactly the memos of the collected transactions whose validator
    display name is not the local moniker; when no such transaction is left
    the string is empty. *)
Theorem C5_peers_sorted_and_joined
    fs cdc name genTxsDir genDoc genAccIterator txs peers :
  returned (CollectStdTxs fs cdc name genTxsDir genDoc genAccIterator) =
    Ret (txs, peers, None) →
  (∃ addrMap,
     addrMapOf cdc genDoc genAccIterator = Some addrMap ∧
     Forall (validated addrMap) txs) ∧
  ∃ entries,
    entries ≡ₚ GetMemo <$> others name txs ∧
    Sorted sort.string_le entries ∧
    peers = strings.Join entries "," ∧
    (others name txs = [] → peers = "").
Proof.
  intros (fos & addrMap & _ & Hmap & Hvalid & _ & ->)%CollectStdTxs_returns.
  split; [by exists addrMap|].
  exists (sort.Strings (GetMemo <$> others name txs)). split_and!.
  - apply Strings_Permutation.
  - apply Strings_Sorted.
  - done.
  - by intros ->.
Qed.

Lemma C5_witness_three_nodes :
  (∃ addrMap,
     addrMapOf Scenario.cdc Scenario.genDoc (Scenario.accounts ["addr1"; "addr2"])
       = Some addrMap ∧
     Forall (validated addrMap) [Scenario.txBob; Scenario.txAlice]) ∧
  ∃ entries,
    entries ≡ₚ GetMemo <$> others "carol" [Scenario.txBob; Scenario.txAlice] ∧
    Sorted sort.string_le entries ∧
    "nodeA@10.0.0.1:26656,nodeB@10.0.0.2:26656" = strings.Join entries "," ∧
    (others "carol" [Scenario.txBob; Scenario.txAlice] = [] →
     "nodeA@10.0.0.1:26656,nodeB@10.0.0.2:26656" = "").
Proof.
  apply (C5_peers_sorted_and_joined Scenario.twoValidatorsReversed Scenario.cdc
           "carol" "gentxs" Scenario.genDoc (Scenario.accounts ["addr1"; "addr2"])).
  vm_compute. reflexivity.
Defined.

(** The claim as first stated fails when a second validator announces
    the node address of the local node: alice's own transaction is
    collected, and her memo is the whole peer string. *)
Lemma C6_counterexample_shared_memo :
  returned (Scenario.collect Scenario.withTwin "alice")
    = Ret ([Scenario.txAlice; Scenario.txTwin], "nodeA@10.0.0.1:26656", None) ∧
  validatorName Scenario.txAlice = Some "alice" ∧
  GetMemo Scenario.txAlice = "nodeA@10.0.0.1:26656" ∧
  Contains "nodeA@10.0.0.1:26656" (GetMemo Scenario.txAlice) = true.
Proof. split_and!; vm_compute; reflexivity. Qed.

(** C6 (as amended) — self-exclusion.  On a run that returns no error, a
    collected transaction whose validator display name is the local
    moniker adds no entry to the peer list: the entries joined into the
    peer string are the memos of the other collected transactions, so its
    memo is among them only when one of those carries the same memo. *)
Theorem C6_self_exclusion
    fs cdc name genTxsDir genDoc genAccIterator txs peers tx :
  returned (CollectStdTxs fs cdc name genTxsDir genDoc genAccIterator) =
    Ret (txs, peers, None) →
  tx ∈ txs →
  validatorName tx = Some name →
  ∃ entries,
    peers = strings.Join entries "," ∧
    entries ≡ₚ GetMemo <$> others name txs ∧
    (GetMemo tx ∈ entries →
     ∃ tx', tx' ∈ txs ∧ validatorName tx' ≠ Some name ∧ GetMemo tx' = GetMemo tx).
Proof.
  intros (fos & addrMap & _ & _ & _ & _ & ->)%CollectStdTxs_returns Hin Hself.
  exists (sort.Strings (GetMemo <$> others name txs)). split_and!.
  - done.
  - apply Strings_Permutation.
  - rewrite Strings_Permutation.
    intros (tx' & Hmemo & [Hother Hin']%list_elem_of_filter)%list_elem_of_fmap.
    by exists tx'.
Qed.

Lemma C6_witness_alice_excluded :
  ∃ entries,
    "nodeB@10.0.0.2:26656" = strings.Join entries "," ∧
    entries ≡ₚ GetMemo <$> others "alice" [Scenario.txAlice; Scenario.txBob] ∧
    (GetMemo Scenario.txAlice ∈ entries →
     ∃ tx', tx' ∈ [Scenario.txAlice; Scenario.txBob] ∧
            validatorName tx' ≠ Some "alice" ∧
            GetMemo tx' = GetMemo Scenario.txAlice).
Proof.
  apply (C6_self_exclusion Scenario.twoValidators Scenario.cdc "alice" "gentxs"
           Scenario.genDoc (Scenario.accounts ["addr1"; "addr2"])).
  - vm_compute. reflexivity.
  - apply list_elem_of_here.
  - reflexivity.
Defined.

(** ** Two listings of the same files *)

Section SameFiles.
Context (fs1 fs2 : FileSystem) (cdc : Codec) (name genTxsDir : string).
Context (addrMap : gmap string Account).
Hypothesis same_content : ∀ p, ReadFile fs1 p = ReadFile fs2 p.

Lemma loopBody_same_content fo txs addrs :
  loopBody fs1 cdc name genTxsDir addrMap fo txs addrs =
  loopBody fs2 cdc name genTxsDir addrMap fo txs addrs.
Proof. unfold loopBody, ioutil_ReadFile. by rewrite same_content. Qed.

Lemma accept_same_content fo :
  accept fs1 cdc name genTxsDir addrMap fo = accept fs2 cdc name genTxsDir addrMap fo.
Proof. unfold accept. by rewrite loopBody_same_content. Qed.

Lemma txsOf_same_content fo :
  txsOf fs1 cdc name genTxsDir addrMap fo = txsOf fs2 cdc name genTxsDir addrMap fo.
Proof. unfold txsOf. by rewrite accept_same_content. Qed.

Lemma addrsOf_same_content fo :
  addrsOf fs1 cdc name genTxsDir addrMap fo = addrsOf fs2 cdc name genTxsDir addrMap fo.
Proof. unfold addrsOf. by rewrite accept_same_content. Qed.

(** If the loop runs to its end over one listing, it does so over every
    reordering of it, and collects the same elements. *)
Lemma rangeLoop_reordered fos1 fos2 txs1 addrs1 t1 :
  fos1 ≡ₚ fos2 →
  rangeLoop fs1 cdc name genTxsDir addrMap fos1 [] [] = (Ret (Next txs1 addrs1), t1) →
  ∃ txs2 addrs2 t2,
    rangeLoop fs2 cdc name genTxsDir addrMap fos2 [] [] = (Ret (Next txs2 addrs2), t2) ∧
    txs1 ≡ₚ txs2 ∧ addrs1 ≡ₚ addrs2.
Proof.
  intros Hperm (Hall & -> & -> & _)%rangeLoop_Next.
  eexists _, _, _. split_and!.
  - apply rangeLoop_Next. split_and!; [|done..].
    rewrite <- Hperm. eapply Forall_impl; [exact Hall|].
    intros fo Hfo. simpl in *. by rewrite <- accept_same_content.
  - simpl. rewrite Hperm. erewrite Forall_bind_ext; [done|].
    apply Forall_forall. intros fo _. apply txsOf_same_content.
  - simpl. rewrite Hperm. erewrite Forall_bind_ext; [done|].
    apply Forall_forall. intros fo _. apply addrsOf_same_content.
Qed.
End SameFiles.

(** C4 — determinism of the peer list.  Take two runs over the same file
    contents, with the same codec, moniker, genesis document and accounts,
    whose directory listings are reorderings of one another.  If the first
    returns no error, so does the second, with the same peer string, byte
    for byte (and the same transactions, in the order of its listing). *)
Theorem C4_peers_independent_of_listing_order
    fs1 fs2 cdc name genTxsDir genDoc genAccIterator fos1 fos2 txs1 peers :
  ReadDir fs1 genTxsDir = Ok fos1 →
  ReadDir fs2 genTxsDir = Ok fos2 →
  fos1 ≡ₚ fos2 →
  (∀ p, ReadFile fs1 p = ReadFile fs2 p) →
  returned (CollectStdTxs fs1 cdc name genTxsDir genDoc genAccIterator) =
    Ret (txs1, peers, None) →
  ∃ txs2,
    returned (CollectStdTxs fs2 cdc name genTxsDir genDoc genAccIterator) =
      Ret (txs2, peers, None) ∧
    txs1 ≡ₚ txs2.
Proof.
  intros Hdir1 Hdir2 Hperm Hsame
    (fos & addrMap & addrs1 & t1 & Hdir & Hmap & Hloop & ->)%CollectStdTxs_success.
  assert (fos = fos1) as -> by congruence.
  destruct (rangeLoop_reordered fs1 fs2 cdc name genTxsDir addrMap Hsame
              _ _ _ _ _ Hperm Hloop) as (txs2 & addrs2 & t2 & Hloop2 & Htxs & Haddrs).
  exists txs2. split; [|done].
  rewrite (CollectStdTxs_run _ _ _ _ _ _ _ _ Hdir2 Hmap), Hloop2. simpl.
  by rewrite (Strings_order_independent _ _ Haddrs).
Qed.

Lemma C4_witness_reversed_listing :
  ∃ txs2,
    returned (Scenario.collect Scenario.twoValidatorsReversed "carol") =
      Ret (txs2, "nodeA@10.0.0.1:26656,nodeB@10.0.0.2:26656", None) ∧
    [Scenario.txAlice; Scenario.txBob] ≡ₚ txs2.
Proof.
  apply (C4_peers_independent_of_listing_order
           Scenario.twoValidators Scenario.twoValidatorsReversed Scenario.cdc
           "carol" "gentxs" Scenario.genDoc (Scenario.accounts ["addr1"; "addr2"])
           [Scenario.entry "v1.json"; Scenario.entry "v2.json"]
           [Scenario.entry "v2.json"; Scenario.entry "v1.json"]).
  - reflexivity.
  - reflexivity.
  - apply perm_swap.
  - intros p. unfold Scenario.twoValidators, Scenario.twoValidatorsReversed,
      Scenario.dirFS, ReadFile. simpl.
    repeat case_decide; simplify_eq; done.
  - vm_compute. reflexivity.
Defined.

(** ** The account index *)

(** The callback never asks to stop, so the iteration is a left fold of
    map insertions. *)
Lemma iterate_indexAccount_cons acc accs (addrMap : gmap string Account) :
  iterate (acc :: accs) indexAccount addrMap =
  iterate accs indexAccount (<[sdk.String (GetAddress acc) := acc]> addrMap).
Proof. reflexivity. Qed.

Lemma iterate_indexAccount_lookup accs (addrMap : gmap string Account) addr :
  iterate accs indexAccount addrMap !! addr =
    match last (filter (λ acc, sdk.String (GetAddress acc) = addr) accs) with
    | Some acc => Some acc
    | None => addrMap !! addr
    end.
Proof.
  revert addrMap. induction accs as [|acc accs IH]; intros addrMap; [done|].
  rewrite iterate_indexAccount_cons, IH.
  destruct (decide (sdk.String (GetAddress acc) = addr)) as [Heq|Hne].
  - rewrite filter_cons_True by done. rewrite last_cons.
    destruct (last (filter _ accs)); [done|]. by rewrite Heq, lookup_insert_eq.
  - rewrite filter_cons_False by done.
    destruct (last (filter _ accs)); [done|]. by rewrite lookup_insert_ne.
Qed.

Lemma iterate_indexAccount_reordered accs accs' (addrMap : gmap string Account) :
  accs ≡ₚ accs' →
  NoDup (GetAddress <$> accs) →
  iterate accs indexAccount addrMap = iterate accs' indexAccount addrMap.
Proof.
  intros Hperm. revert addrMap.
  induction Hperm as [|acc accs accs' Hperm IH|acc1 acc2 accs|accs1 accs2 accs3 H12 IH12 H23 IH23];
    intros addrMap Hnodup.
  - done.
  - rewrite !iterate_indexAccount_cons. apply IH.
    rewrite fmap_cons in Hnodup. by apply NoDup_cons in Hnodup as [_ ?].
  - rewrite !iterate_indexAccount_cons. f_equal. apply insert_insert_ne.
    rewrite !fmap_cons in Hnodup. apply NoDup_cons in Hnodup as [Hnotin _].
    intros Heq. apply Hnotin. unfold sdk.String in Heq. rewrite Heq. left.
  - rewrite IH12 by done. apply IH23. by rewrite <- H12.
Qed.

(** C9 — the account index.  The index maps an address to the last
    account of that address that the iterator yielded, building it cannot
    fail, and when the yielded accounts have pairwise distinct addresses an
    iterator that yields them in another order produces the same index. *)
Theorem C9_index_last_wins
    (genAccIterator : GenesisAccountsIterator) (cdc : Codec)
    (appState : gmap string bytes) :
  let accs := GenesisAccounts genAccIterator cdc appState in
  let addrMap := IterateGenesisAccounts genAccIterator cdc appState indexAccount ∅ in
  (∀ addr,
     addrMap !! addr =
       last (filter (λ acc, sdk.String (GetAddress acc) = addr) accs)) ∧
  (∀ genAccIterator' : GenesisAccountsIterator,
     NoDup (GetAddress <$> accs) →
     GenesisAccounts genAccIterator' cdc appState ≡ₚ accs →
     IterateGenesisAccounts genAccIterator' cdc appState indexAccount ∅ = addrMap).
Proof.
  intros accs addrMap. split.
  - intros addr. unfold addrMap, IterateGenesisAccounts.
    rewrite iterate_indexAccount_lookup. fold accs.
    by destruct (last (filter _ accs)).
  - intros genAccIterator' Hnodup Hperm. unfold addrMap, IterateGenesisAccounts.
    symmetry. by apply iterate_indexAccount_reordered.
Qed.

(** Two accounts of one address: the later one is what the index holds. *)
Example index_duplicate_address :
  IterateGenesisAccounts
    {| GenesisAccounts _ _ :=
         [ {| GetAddress := "addr1"; GetAccountNumber := 0; GetSequence := 0;
              AccountString := "first" |};
           Scenario.mkAcc "addr2";
           {| GetAddress := "addr1"; GetAccountNumber := 7; GetSequence := 0;
              AccountString := "second" |} ] |}
    Scenario.cdc ∅ indexAccount ∅ !! "addr1"
  = Some {| GetAddress := "addr1"; GetAccountNumber := 7; GetSequence := 0;
            AccountString := "second" |}.
Proof. vm_compute. reflexivity. Qed.

Lemma C9_witness_reordered_accounts :
  IterateGenesisAccounts (Scenario.accounts ["addr2"; "addr1"]) Scenario.cdc ∅
    indexAccount ∅
  = IterateGenesisAccounts (Scenario.accounts ["addr1"; "addr2"]) Scenario.cdc ∅
      indexAccount ∅.
Proof.
  apply (proj2 (C9_index_last_wins (Scenario.accounts ["addr1"; "addr2"])
                  Scenario.cdc ∅)).
  - simpl. apply NoDup_cons. split; [|apply NoDup_singleton].
    rewrite list_elem_of_singleton. discriminate.
  - apply perm_swap.
Defined.

(** ** What the assembly run writes *)

(** [CollectStdTxs] only reads. *)
Lemma rangeLoop_writes_nothing fs cdc name genTxsDir addrMap fos txs addrs :
  writes (rangeLoop fs cdc name genTxsDir addrMap fos txs addrs) = [].
Proof.
  unfold writes, events. revert txs addrs.
  induction fos as [|fo fos IH]; intros txs addrs; [done|].
  rewrite rangeLoop_cons.
  pose proof (loopBody_events fs cdc name genTxsDir addrMap fo txs addrs) as Hev.
  unfold events in Hev.
  destruct (loopBody _ _ _ _ _ _ _ _) as [[[txs1 addrs1|]|] t1]; simpl in *; subst t1.
  - specialize (IH txs1 addrs1).
    destruct (rangeLoop _ _ _ _ _ _ _ _) as [r t2]. simpl in *.
    rewrite filter_app, IH. by destruct (skips genTxsDir fo).
  - by destruct (skips genTxsDir fo).
  - by destruct (skips genTxsDir fo).
Qed.

Lemma CollectStdTxs_writes_nothing fs cdc name genTxsDir genDoc genAccIterator :
  writes (CollectStdTxs fs cdc name genTxsDir genDoc genAccIterator) = [].
Proof.
  destruct (ReadDir fs genTxsDir) as [fos|e] eqn:Hdir.
  2:{ unfold CollectStdTxs, ioutil_ReadDir. by rewrite Hdir. }
  destruct (addrMapOf cdc genDoc genAccIterator) as [addrMap|] eqn:Hmap.
  2:{ unfold CollectStdTxs, ioutil_ReadDir, addrMapOf in *. rewrite Hdir. simpl.
      by destruct (UnmarshalAppState cdc (AppState genDoc)). }
  rewrite (CollectStdTxs_run _ _ _ _ _ _ _ _ Hdir Hmap).
  pose proof (rangeLoop_writes_nothing fs cdc name genTxsDir addrMap fos [] []) as Hw.
  unfold writes, events in *.
  by destruct (rangeLoop _ _ _ _ _ _ _ _) as [[[]|] ?].
Qed.

(** The claim as first stated fails on an empty directory: the run ends
    with the error about the missing genesis transaction, and by then it
    has written config.toml. *)
Lemma C1_counterexample_config_written :
  returned (Scenario.collect Scenario.emptyDir "alice") = Ret ([], "", None) ∧
  returned (Scenario.assemble Scenario.emptyDir "alice") =
    Ret ("", Some (ErrUnknownRequest "there must be at least one genesis tx")) ∧
  writes (Scenario.assemble Scenario.emptyDir "alice") =
    [EvWriteConfig "/root/.zbld/config/config.toml" (Scenario.config "alice")].
Proof. split_and!; vm_compute; reflexivity. Qed.

(** C1 (as amended) — empty input.  When [CollectStdTxs] returns no error
    and no transaction, and the configuration file can be written,
    [GenAppStateFromConfig] returns the error
    "there must be at least one genesis tx" ([sdk.ErrUnknownRequest]); the
    genesis document is not written, and the one file written is
    config.toml, with an empty peer list. *)
Theorem C1_empty_genesis_rejected
    fs genutil cdc config initCfg genDoc genAccIterator peers :
  returned (CollectStdTxs fs cdc (Moniker config) (GenTxsDir initCfg) genDoc
              genAccIterator) = Ret ([], peers, None) →
  WriteFails fs (filepath.Join [RootDir config; "config"; "config.toml"]) = None →
  returned (GenAppStateFromConfig fs genutil cdc config initCfg genDoc genAccIterator)
    = Ret ("", Some (ErrUnknownRequest "there must be at least one genesis tx")) ∧
  writes (GenAppStateFromConfig fs genutil cdc config initCfg genDoc genAccIterator)
    = [EvWriteConfig (filepath.Join [RootDir config; "config"; "config.toml"])
         (set_PersistentPeers config "")].
Proof.
  intros Hcollect Hwrite.
  pose proof Hcollect as (_ & _ & _ & _ & _ & _ & Hpeers)%CollectStdTxs_returns.
  change (peers = "") in Hpeers. subst peers.
  pose proof (CollectStdTxs_writes_nothing fs cdc (Moniker config)
                (GenTxsDir initCfg) genDoc genAccIterator) as Hreads.
  unfold GenAppStateFromConfig, writes, events, returned in *.
  destruct (CollectStdTxs _ _ _ _ _ _) as [r t]. simpl in Hcollect. subst r.
  unfold mbind, M_bind, WriteConfigFile. simpl. rewrite Hwrite. simpl in *.
  split; [done|]. by rewrite filter_app, Hreads.
Qed.

Lemma C1_witness_empty_directory :
  returned (Scenario.assemble Scenario.emptyDir "alice")
    = Ret ("", Some (ErrUnknownRequest "there must be at least one genesis tx")) ∧
  writes (Scenario.assemble Scenario.emptyDir "alice")
    = [EvWriteConfig "/root/.zbld/config/config.toml" (Scenario.config "alice")].
Proof.
  apply (C1_empty_genesis_rejected Scenario.emptyDir Scenario.genutil Scenario.cdc
           (Scenario.config "alice") Scenario.initCfg Scenario.genDoc
           (Scenario.accounts ["addr1"; "addr2"]) "").
  - vm_compute. reflexivity.
  - reflexivity.
Defined.

(** A run with transactions writes both files, the configuration first. *)
Example assemble_two_validators :
  writes (Scenario.assemble Scenario.twoValidators "alice") =
    [EvWriteConfig "/root/.zbld/config/config.toml"
       (set_PersistentPeers (Scenario.config "alice") "nodeB@10.0.0.2:26656");
     EvWriteGenesis "/root/.zbld/config/genesis.json"
       {| ChainID := "zbl"; AppState := "{}" |}].
Proof. vm_compute. reflexivity. Qed.

(** The transactions merged into the genesis document are the collected
    ones, all of them: when the assembly run returns no error, the state it
    marshals is [SetGenTxsInAppGenesisState] applied to what
    [CollectStdTxs] returned, and the genesis document it writes carries
    that state. *)
Lemma GenAppStateFromConfig_merges_collected
    fs genutil cdc config initCfg genDoc genAccIterator appState :
  returned (GenAppStateFromConfig fs genutil cdc config initCfg genDoc
              genAccIterator) = Ret (appState, None) →
  ∃ txs peers st st',
    returned (CollectStdTxs fs cdc (Moniker config) (GenTxsDir initCfg) genDoc
                genAccIterator) = Ret (txs, peers, None) ∧
    GenesisStateFromGenDoc genutil cdc genDoc = Ok st ∧
    SetGenTxsInAppGenesisState genutil cdc st txs = Ok st' ∧
    MarshalJSONIndent cdc st' = Ok appState ∧
    EvWriteGenesis (GenesisFile config)
      {| ChainID := ChainID genDoc; AppState := appState |} ∈
      events (GenAppStateFromConfig fs genutil cdc config initCfg genDoc
                genAccIterator).
Proof.
  unfold GenAppStateFromConfig, returned, events.
  destruct (CollectStdTxs _ _ _ _ _ _) as [[[[txs peers] [err|]]|s] t];
    unfold mbind, M_bind; simpl; [done| |done].
  unfold WriteConfigFile.
  destruct (WriteFails fs _); simpl; [done|].
  destruct (length txs =? 0)%nat; simpl; [done|].
  destruct (GenesisStateFromGenDoc genutil cdc genDoc) as [st|] eqn:Hst; simpl; [|done].
  destruct (SetGenTxsInAppGenesisState genutil cdc st txs) as [st'|] eqn:Hst'; simpl; [|done].
  destruct (MarshalJSONIndent cdc st') as [appState'|] eqn:Hm; simpl; [|done].
  unfold ExportGenesisFile.
  change (GenesisFile (set_PersistentPeers config peers)) with (GenesisFile config).
  destruct (WriteFails fs (GenesisFile config)); simpl; [done|].
  intros [= <-]. exists txs, peers, st, st'. split_and!; [done..|].
  rewrite elem_of_app, !elem_of_cons. auto.
Qed.

(** C10 — the collected transactions.  On a run that returns no error,
    [appGenTxs] is the sequence of the transactions that the entries of the
    listing decode to, in listing order; every decoded transaction is in it,
    whatever its validator display name, the local node's own included.
    And that whole sequence is what [GenAppStateFromConfig], run for this
    moniker and directory, merges into the genesis document: when it
    returns no error, the application state it returns and writes is
    [SetGenTxsInAppGenesisState] applied to all the decoded transactions. *)
Theorem C10_all_decoded_collected
    fs cdc name genTxsDir genDoc genAccIterator fos txs peers :
  ReadDir fs genTxsDir = Ok fos →
  returned (CollectStdTxs fs cdc name genTxsDir genDoc genAccIterator) =
    Ret (txs, peers, None) →
  txs = omap (decodedTx fs cdc genTxsDir) fos ∧
  (∀ fo tx, fo ∈ fos → decodedTx fs cdc genTxsDir fo = Some tx → tx ∈ txs) ∧
  (∀ genutil config initCfg appState,
     Moniker config = name →
     GenTxsDir initCfg = genTxsDir →
     returned (GenAppStateFromConfig fs genutil cdc config initCfg genDoc
                 genAccIterator) = Ret (appState, None) →
     ∃ st st',
       GenesisStateFromGenDoc genutil cdc genDoc = Ok st ∧
       SetGenTxsInAppGenesisState genutil cdc st
         (omap (decodedTx fs cdc genTxsDir) fos) = Ok st' ∧
       MarshalJSONIndent cdc st' = Ok appState ∧
       EvWriteGenesis (GenesisFile config)
         {| ChainID := ChainID genDoc; AppState := appState |} ∈
         events (GenAppStateFromConfig fs genutil cdc config initCfg genDoc
                   genAccIterator)).
Proof.
  intros Hdir Hcollect.
  pose proof Hcollect as (fos' & addrMap & Hdir' & _ & _ & Htxs & _)%CollectStdTxs_returns.
  assert (fos' = fos) as -> by congruence.
  split_and!.
  - done.
  - intros fo tx Hfo Hdec. rewrite Htxs. apply list_elem_of_omap. eauto.
  - intros genutil config initCfg appState <- <-
      (txs' & peers' & st & st' & Hcollect' & Hst & Hset & Hm & Hwritten)%GenAppStateFromConfig_merges_collected.
    assert (txs' = txs) as -> by congruence.
    exists st, st'. by rewrite <- Htxs.
Qed.

Lemma C10_witness_own_transaction_kept :
  [Scenario.txAlice; Scenario.txBob] =
    omap (decodedTx Scenario.twoValidators Cases.memoCodec "gentxs")
      [Scenario.entry "v1.json"; Scenario.entry "v2.json"] ∧
  Scenario.txAlice ∈ [Scenario.txAlice; Scenario.txBob] ∧
  ∃ st st',
    GenesisStateFromGenDoc Cases.memoGenutil Cases.memoCodec Scenario.genDoc = Ok st ∧
    SetGenTxsInAppGenesisState Cases.memoGenutil Cases.memoCodec st
      (omap (decodedTx Scenario.twoValidators Cases.memoCodec "gentxs")
         [Scenario.entry "v1.json"; Scenario.entry "v2.json"]) = Ok st' ∧
    MarshalJSONIndent Cases.memoCodec st' =
      Ok "nodeA@10.0.0.1:26656;nodeB@10.0.0.2:26656" ∧
    EvWriteGenesis (GenesisFile (Scenario.config "alice"))
      {| ChainID := ChainID Scenario.genDoc;
         AppState := "nodeA@10.0.0.1:26656;nodeB@10.0.0.2:26656" |} ∈
      events (GenAppStateFromConfig Scenario.twoValidators Cases.memoGenutil
                Cases.memoCodec (Scenario.config "alice") Scenario.initCfg
                Scenario.genDoc (Scenario.accounts ["addr1"; "addr2"])).
Proof.
  destruct (C10_all_decoded_collected Scenario.twoValidators Cases.memoCodec "alice"
              "gentxs" Scenario.genDoc (Scenario.accounts ["addr1"; "addr2"])
              [Scenario.entry "v1.json"; Scenario.entry "v2.json"]
              [Scenario.txAlice; Scenario.txBob] "nodeB@10.0.0.2:26656")
    as (Htxs & Hin & Hmerged).
  - vm_compute. reflexivity.
  - vm_compute. reflexivity.
  - split_and!.
    + exact Htxs.
    + apply (Hin (Scenario.entry "v1.json")); [apply list_elem_of_here|].
      vm_compute. reflexivity.
    + apply (Hmerged Cases.memoGenutil (Scenario.config "alice") Scenario.initCfg
               "nodeA@10.0.0.1:26656;nodeB@10.0.0.2:26656").
      * reflexivity.
      * reflexivity.
      * vm_compute. reflexivity.
Defined.

(** * Further properties of the collection *)

Section LoopOutcome.
Context (fs : FileSystem) (cdc : Codec) (name genTxsDir : string).
Context (addrMap : gmap string Account).

Local Abbreviation body' := (loopBody fs cdc name genTxsDir addrMap).
Local Abbreviation loop' := (rangeLoop fs cdc name genTxsDir addrMap).
Local Abbreviation accepts' := (accept fs cdc name genTxsDir addrMap).

Lemma accept_entryOK fo :
  is_Some (accepts' fo) ↔ entryOK fs cdc genTxsDir addrMap fo.
Proof.
  unfold entryOK, validated. split.
  - intros [[dt da] [(? & _)|(tx & msg & ? & ? & ? & ? & _)]%accept_Some];
      [by left|right; eauto 10].
  - intros [Hs|(tx & Hdec & Hmemo & msg & Hmsgs & Hin)].
    + exists ([], []). apply accept_Some. by left.
    + eexists (_, _). apply accept_Some. right. exists tx, msg. eauto 10.
Qed.

Lemma loopBody_events_read fo txs addrs :
  events (body' fo txs addrs) = readsOf genTxsDir [fo].
Proof.
  rewrite loopBody_events. unfold readsOf.
  destruct (skips genTxsDir fo) eqn:Hs.
  - by rewrite filter_cons_False by (rewrite Hs; done).
  - by rewrite filter_cons_True by done.
Qed.

Lemma readsOf_app fos1 fos2 :
  readsOf genTxsDir (fos1 ++ fos2) = readsOf genTxsDir fos1 ++ readsOf genTxsDir fos2.
Proof. unfold readsOf. by rewrite filter_app, fmap_app. Qed.

Lemma rangeLoop_events_Next fos txs addrs txs' addrs' t :
  loop' fos txs addrs = (Ret (Next txs' addrs'), t) → t = readsOf genTxsDir fos.
Proof.
  intros (_ & _ & _ & ->)%rangeLoop_Next.
  induction fos as [|fo fos IH]; [done|].
  cbn [mbind list_bind]. rewrite IH, loopBody_events_read.
  by rewrite <- readsOf_app.
Qed.

(** What one round leaves in [appGenTxs]: the transaction of the entry,
    if the entry decodes to one, whether the round goes on or returns. *)
Lemma loopBody_collects fo txs addrs :
  match body' fo txs addrs with
  | (Ret (Next txs' _), _) | (Ret (Return txs' _), _) =>
      txs' = txs ++ option_list (decodedTx fs cdc genTxsDir fo)
  | (Panic _, _) => True
  end.
Proof.
  unfold decodedTx, skips, loopBody, ioutil_ReadFile.
  destruct (negb (IsDir fo) && _); simpl; [by rewrite app_nil_r|].
  destruct (ReadFile fs _) as [raw|]; simpl; [|by rewrite app_nil_r].
  destruct (UnmarshalStdTx cdc raw) as [tx|]; simpl; [|by rewrite app_nil_r].
  destruct (String.length (GetMemo tx) =? 0)%nat; simpl; [done|].
  destruct (negb (length (GetMsgs tx) =? 1)%nat); simpl; [done|].
  destruct (GetMsgs tx) as [|[msg|] ?]; simpl; [done| |done].
  destruct (addrMap !! _); simpl; [|done].
  by destruct (negb _).
Qed.

(** The loop either runs to its end, or stops at the first entry that is
    not accepted, with what the round of that entry yields. *)
Lemma rangeLoop_outcome fos txs addrs :
  (∃ txs' addrs', loop' fos txs addrs = (Ret (Next txs' addrs'), readsOf genTxsDir fos)) ∨
  (∃ pre fo post txs1 addrs1 r t2,
     fos = pre ++ fo :: post ∧
     loop' pre txs addrs = (Ret (Next txs1 addrs1), readsOf genTxsDir pre) ∧
     accepts' fo = None ∧
     body' fo txs1 addrs1 = (r, t2) ∧
     loop' fos txs addrs = (r, readsOf genTxsDir pre ++ t2)).
Proof.
  revert txs addrs. induction fos as [|fo fos IH]; intros txs addrs.
  { left. by exists txs, addrs. }
  destruct (body' fo txs addrs) as [r t1] eqn:Hbody.
  destruct (accepts' fo) as [[dt da]|] eqn:Hacc.
  - assert (body' fo txs addrs = (Ret (Next (txs ++ dt) (addrs ++ da)), readsOf genTxsDir [fo]))
      as Hnext.
    { apply loopBody_Next. exists dt, da. split_and!; [done..|].
      symmetry. apply loopBody_events_read. }
    destruct (IH (txs ++ dt) (addrs ++ da))
      as [(txs' & addrs' & Hloop)
         |(pre & fo' & post & txs1 & addrs1 & r' & t2 & -> & Hpre & Hacc' & Hbody' & Hloop)].
    + left. exists txs', addrs'. rewrite rangeLoop_cons, Hnext, Hloop.
      by rewrite <- readsOf_app.
    + right. exists (fo :: pre), fo', post, txs1, addrs1, r', t2.
      split_and!; [done| |done..|].
      * rewrite rangeLoop_cons, Hnext, Hpre. by rewrite <- readsOf_app.
      * rewrite rangeLoop_cons, Hnext, Hloop.
        by rewrite app_assoc, <- readsOf_app.
  - right. exists [], fo, fos, txs, addrs, r, t1. split_and!; [done..|].
    rewrite rangeLoop_cons, Hbody. simpl.
    destruct r as [[txs1 addrs1|]|]; [|done..].
    apply loopBody_Next in Hbody as (dt & da & Hacc' & _). congruence.
Qed.
End LoopOutcome.

Section CollectOutcome.
Context (fs : FileSystem) (cdc : Codec) (name genTxsDir : string).
Context (genDoc : GenesisDoc) (genAccIterator : GenesisAccountsIterator).

Local Abbreviation collect' :=
  (CollectStdTxs fs cdc name genTxsDir genDoc genAccIterator).

(** The run returns no error exactly when the directory can be listed,
    the application state can be decoded, and every entry of the listing is
    either skipped or decodes to a transaction that passes the checks. *)
Theorem CollectStdTxs_succeeds_iff :
  (∃ txs peers, returned collect' = Ret (txs, peers, None)) ↔
  ∃ fos addrMap,
    ReadDir fs genTxsDir = Ok fos ∧
    addrMapOf cdc genDoc genAccIterator = Some addrMap ∧
    Forall (entryOK fs cdc genTxsDir addrMap) fos.
Proof.
  split.
  - intros (txs & peers & (fos & addrMap & addrs & t & Hdir & Hmap & Hloop & _)%CollectStdTxs_success).
    exists fos, addrMap. split_and!; [done..|].
    apply rangeLoop_Next in Hloop as (Hall & _).
    eapply Forall_impl; [exact Hall|]. intros fo. apply accept_entryOK.
  - intros (fos & addrMap & Hdir & Hmap & Hall).
    rewrite (CollectStdTxs_run _ _ _ _ _ _ _ _ Hdir Hmap).
    assert (Forall (λ fo, is_Some (accept fs cdc name genTxsDir addrMap fo)) fos) as Hacc.
    { eapply Forall_impl; [exact Hall|]. intros fo. apply accept_entryOK. }
    rewrite (proj2 (rangeLoop_Next fs cdc name genTxsDir addrMap fos [] [] _ _ _)
               (conj Hacc (conj eq_refl (conj eq_refl eq_refl)))).
    by eexists _, _.
Qed.

(** The entries before the first one that is not accepted run to the
    end of their rounds, and that entry does not. *)
Lemma rangeLoop_first_refused addrMap fos :
  Forall (entryOK fs cdc genTxsDir addrMap) fos ∨
  ∃ pre fo post,
    fos = pre ++ fo :: post ∧
    Forall (entryOK fs cdc genTxsDir addrMap) pre ∧
    ¬ entryOK fs cdc genTxsDir addrMap fo.
Proof.
  induction fos as [|fo fos IH]; [by left|].
  destruct (accept fs cdc name genTxsDir addrMap fo) as [c|] eqn:Hacc.
  - assert (entryOK fs cdc genTxsDir addrMap fo) as Hfo
      by (apply (accept_entryOK fs cdc name); by rewrite Hacc).
    destruct IH as [Hall|(pre & fo' & post & -> & Hpre & Hfo')].
    + left. by constructor.
    + right. exists (fo :: pre), fo', post. split_and!; [done| |done].
      by constructor.
  - right. exists [], fo, fos. split_and!; [done..|].
    intros Hfo%(accept_entryOK fs cdc name). rewrite Hacc in Hfo. by destruct Hfo.
Qed.

Lemma entryOK_prefix_unique addrMap pre1 fo1 post1 pre2 fo2 post2 :
  pre1 ++ fo1 :: post1 = pre2 ++ fo2 :: post2 →
  Forall (entryOK fs cdc genTxsDir addrMap) pre1 →
  ¬ entryOK fs cdc genTxsDir addrMap fo1 →
  Forall (entryOK fs cdc genTxsDir addrMap) pre2 →
  ¬ entryOK fs cdc genTxsDir addrMap fo2 →
  pre1 = pre2 ∧ fo1 = fo2 ∧ post1 = post2.
Proof.
  revert pre2. induction pre1 as [|x pre1 IH]; intros [|y pre2]; simpl.
  - by intros [= -> ->].
  - intros [= <- _] _ Hno [Hyes _]%Forall_cons _. done.
  - intros [= -> _] [Hyes _]%Forall_cons _ _ Hno. done.
  - intros [= -> Heq] [_ H1]%Forall_cons Hno1 [_ H2]%Forall_cons Hno2.
    destruct (IH _ Heq H1 Hno1 H2 Hno2) as (-> & -> & ->). done.
Qed.

(** The run stops reading at the first entry that is not accepted.  If
    every entry of the listing is accepted, the files read are those of
    all entries that are not skipped, in listing order and once each.
    Otherwise, with [fo] the first entry that is not accepted, the files
    read are those of the entries up to and including [fo]; no entry after
    [fo] is read, whatever way the run ends. *)
Theorem CollectStdTxs_reads_a_prefix fos addrMap :
  ReadDir fs genTxsDir = Ok fos →
  addrMapOf cdc genDoc genAccIterator = Some addrMap →
  (Forall (entryOK fs cdc genTxsDir addrMap) fos ∧
   events collect' = EvReadDir genTxsDir :: readsOf genTxsDir fos) ∨
  (∃ pre fo post,
     fos = pre ++ fo :: post ∧
     Forall (entryOK fs cdc genTxsDir addrMap) pre ∧
     ¬ entryOK fs cdc genTxsDir addrMap fo ∧
     events collect' = EvReadDir genTxsDir :: readsOf genTxsDir (pre ++ [fo])).
Proof.
  intros Hdir Hmap. rewrite (CollectStdTxs_run _ _ _ _ _ _ _ _ Hdir Hmap).
  destruct (rangeLoop_outcome fs cdc name genTxsDir addrMap fos [] [])
    as [(txs' & addrs' & Hloop)
       |(pre & fo & post & txs1 & addrs1 & r & t2 & -> & Hpre & Hacc & Hbody & ->)].
  - left. rewrite Hloop. split; [|done].
    apply rangeLoop_Next in Hloop as (Hall & _).
    eapply Forall_impl; [exact Hall|]. intros fo. apply accept_entryOK.
  - right. exists pre, fo, post.
    pose proof (loopBody_events_read fs cdc name genTxsDir addrMap fo txs1 addrs1) as Hev.
    rewrite Hbody in Hev. simpl in Hev. subst t2.
    apply rangeLoop_Next in Hpre as (Hall & _).
    split_and!; [done| | |].
    + eapply Forall_impl; [exact Hall|]. intros fo'. apply accept_entryOK.
    + intros Hfo%(accept_entryOK fs cdc name). rewrite Hacc in Hfo. by destruct Hfo.
    + rewrite readsOf_app.
      by destruct r as [[txs2 addrs2|txs2 err]|s].
Qed.

(** When the run returns an error, the peer string is empty.  If the
    application state could not be decoded no transaction is returned;
    otherwise, with [fo] the first entry that is not accepted, the
    transactions returned with the error are those that the entries up to
    and including [fo] decode to: the transaction of [fo] itself, when
    [fo] decodes to one, is among them, and nothing of a later entry. *)
Theorem CollectStdTxs_error_result fos txs peers err :
  ReadDir fs genTxsDir = Ok fos →
  returned collect' = Ret (txs, peers, Some err) →
  peers = "" ∧
  ((addrMapOf cdc genDoc genAccIterator = None ∧ txs = []) ∨
   ∃ addrMap pre fo post,
     addrMapOf cdc genDoc genAccIterator = Some addrMap ∧
     fos = pre ++ fo :: post ∧
     Forall (entryOK fs cdc genTxsDir addrMap) pre ∧
     ¬ entryOK fs cdc genTxsDir addrMap fo ∧
     txs = omap (decodedTx fs cdc genTxsDir) (pre ++ [fo])).
Proof.
  intros Hdir.
  destruct (addrMapOf cdc genDoc genAccIterator) as [addrMap|] eqn:Hmap.
  2:{ unfold CollectStdTxs, ioutil_ReadDir, addrMapOf in *. rewrite Hdir. simpl.
      destruct (UnmarshalAppState cdc (AppState genDoc)); [done|].
      intros [= <- <- <-]. split; [done|]. by left. }
  rewrite (CollectStdTxs_run _ _ _ _ _ _ _ _ Hdir Hmap).
  destruct (rangeLoop_outcome fs cdc name genTxsDir addrMap fos [] [])
    as [(txs' & addrs' & ->)
       |(pre & fo & post & txs1 & addrs1 & r & t2 & -> & Hpre & Hacc & Hbody & ->)];
    [done|].
  apply rangeLoop_Next in Hpre as (Hall & -> & _ & _).
  pose proof (loopBody_collects fs cdc name genTxsDir addrMap fo
                ([] ++ pre ≫= txsOf fs cdc name genTxsDir addrMap) addrs1) as Hcol.
  rewrite Hbody in Hcol.
  destruct r as [[txs2 addrs2|txs2 err2]|s]; simpl; [done| |done].
  intros [= <- <- <-]. split; [done|]. right.
  exists addrMap, pre, fo, post. split_and!; [done..| | |].
  - eapply Forall_impl; [exact Hall|]. intros fo'. apply accept_entryOK.
  - intros Hfo%(accept_entryOK fs cdc name). rewrite Hacc in Hfo. by destruct Hfo.
  - rewrite Hcol. simpl. rewrite collected_decoded by done.
    rewrite omap_app. simpl. by destruct (decodedTx fs cdc genTxsDir fo).
Qed.

(** A transaction without a memo is rejected with an error that names
    its file; the transaction is in the returned slice all the same. *)
Theorem CollectStdTxs_empty_memo addrMap fo tx sofar :
  reaches fs cdc name genTxsDir genDoc genAccIterator addrMap fo tx sofar →
  GetMemo tx = "" →
  returned collect' =
    Ret (sofar ++ [tx], "",
         Some (ErrUnknownRequest
                 ("couldn't find node's address and IP in " +:+ FileName fo))).
Proof.
  intros [(addrs & post & t & ->)%CollectStdTxs_arrives Hdec] Hmemo.
  by rewrite (loopBody_no_memo _ _ _ _ _ _ tx).
Qed.

(** A file that is read but cannot be deserialized ends the run with the
    codec's error; nothing is added to the collected transactions. *)
Theorem CollectStdTxs_decode_error addrMap fo sofar raw err :
  arrives fs cdc name genTxsDir genDoc genAccIterator addrMap fo sofar →
  skips genTxsDir fo = false →
  ReadFile fs (filepath.Join [genTxsDir; FileName fo]) = Ok raw →
  UnmarshalStdTx cdc raw = Err err →
  returned collect' = Ret (sofar, "", Some err).
Proof.
  intros (addrs & post & t & ->)%CollectStdTxs_arrives Hskip Hread Hdecode.
  unfold loopBody, ioutil_ReadFile. unfold skips in Hskip. rewrite Hskip. simpl.
  rewrite Hread. simpl. by rewrite Hdecode.
Qed.
End CollectOutcome.

(** ** The suffix test *)

Lemma ext_scan_append (pre s r : string) :
  filepath.ext_scan s = Some r → filepath.ext_scan (pre +:+ s) = Some r.
Proof.
  intros Hs. induction pre as [|c pre IH]; [done|].
  rewrite append_cons. simpl. by rewrite IH.
Qed.

Lemma ext_scan_after_separator (name : string) :
  filepath.ext_scan ("/" +:+ name) = Some (filepath.Ext name).
Proof.
  change ("/" +:+ name) with (String "/" name). unfold filepath.Ext. simpl.
  by destruct (filepath.ext_scan name).
Qed.

(** The extension of a joined path is that of its last element. *)
Lemma Ext_Join (dir name : string) :
  name ≠ "" → filepath.Ext (filepath.Join [dir; name]) = filepath.Ext name.
Proof.
  intros Hname. unfold filepath.Join.
  destruct (decide (dir = "")) as [->|Hdir].
  - rewrite filter_cons_False by (by intros []).
    by rewrite filter_cons_True, filter_nil by done.
  - rewrite !filter_cons_True, filter_nil by done.
    change (strings.Join [dir; name] "/") with (dir +:+ "/" +:+ name).
    unfold filepath.Ext at 1.
    by rewrite (ext_scan_append dir _ _ (ext_scan_after_separator name)).
Qed.

Lemma ext_scan_is_suffix (s r : string) :
  filepath.ext_scan s = Some r → ∃ pre, s = pre +:+ r.
Proof.
  revert r. induction s as [|c s IH]; intros r; [done|]. simpl.
  destruct (filepath.ext_scan s) as [r'|].
  - intros [= <-]. destruct (IH r' eq_refl) as [pre ->]. by exists (String c pre).
  - destruct (filepath.IsPathSeparator c).
    + intros [= <-]. exists (String c s). rewrite append_cons. f_equal.
      clear. induction s as [|c s IH]; [done|]. rewrite append_cons. by f_equal.
    + destruct (Ascii.eqb c "."); [|done]. intros [= <-]. by exists "".
Qed.

Lemma HasSuffix_spec (s suffix : string) :
  HasSuffix s suffix = true ↔ ∃ pre, s = pre +:+ suffix.
Proof.
  split.
  - induction s as [|c s IH]; cbn [HasSuffix].
    + rewrite orb_false_r. intros <-%String.eqb_eq. by exists "".
    + intros [<-%String.eqb_eq|Hs]%orb_true_iff; [by exists ""|].
      destruct (IH Hs) as [pre ->]. by exists (String c pre).
  - intros [pre ->]. induction pre as [|c pre IH].
    + change ("" +:+ suffix) with suffix.
      destruct suffix; cbn [HasSuffix]; by rewrite String.eqb_refl.
    + rewrite append_cons. cbn [HasSuffix]. rewrite IH. apply orb_true_r.
Qed.

(** An entry with a name is passed over exactly when it is a regular file
    whose name does not end in ".json"; the directory it lies in plays no
    part. *)
Theorem skips_iff_regular_without_suffix (genTxsDir : string) (fo : FileInfo) :
  FileName fo ≠ "" →
  skips genTxsDir fo = true ↔
  IsDir fo = false ∧ HasSuffix (FileName fo) ".json" = false.
Proof.
  intros Hname. unfold skips. rewrite Ext_Join by done.
  rewrite andb_true_iff, !negb_true_iff.
  assert ((filepath.Ext (FileName fo) =? ".json")%string = HasSuffix (FileName fo) ".json")
    as ->; [|done].
  destruct (HasSuffix (FileName fo) ".json") eqn:Hsuf.
  - apply HasSuffix_spec in Hsuf as [pre Hpre]. apply String.eqb_eq.
    unfold filepath.Ext. rewrite Hpre.
    by rewrite (ext_scan_append pre ".json" ".json").
  - apply String.eqb_neq. intros Hext. unfold filepath.Ext in Hext.
    destruct (filepath.ext_scan (FileName fo)) as [r|] eqn:Hscan; [|done].
    simpl in Hext. subst r. apply ext_scan_is_suffix in Hscan.
    apply HasSuffix_spec in Hscan. congruence.
Qed.

Lemma skips_witness_backup_file :
  skips "gentxs" {| FileName := "v1.json.bak"; IsDir := false |} = true ↔
  IsDir {| FileName := "v1.json.bak"; IsDir := false |} = false ∧
  HasSuffix (FileName {| FileName := "v1.json.bak"; IsDir := false |}) ".json" = false.
Proof.
  apply (skips_iff_regular_without_suffix "gentxs"
           {| FileName := "v1.json.bak"; IsDir := false |}).
  discriminate.
Defined.

(** ** The keys of the account index *)

(** An address is a key of the index exactly when the iterator yielded an
    account of that address, and the account stored under a key is one of
    the yielded accounts and has the key as its address. *)
Theorem index_keys_are_account_addresses
    (genAccIterator : GenesisAccountsIterator) (cdc : Codec)
    (appState : gmap string bytes) (addr : string) :
  let accs := GenesisAccounts genAccIterator cdc appState in
  let addrMap := IterateGenesisAccounts genAccIterator cdc appState indexAccount ∅ in
  (is_Some (addrMap !! addr) ↔
   ∃ acc, acc ∈ accs ∧ sdk.String (GetAddress acc) = addr) ∧
  (∀ acc, addrMap !! addr = Some acc →
          acc ∈ accs ∧ sdk.String (GetAddress acc) = addr).
Proof.
  intros accs addrMap.
  assert (∀ acc, addrMap !! addr = Some acc →
                 acc ∈ accs ∧ sdk.String (GetAddress acc) = addr) as Hstored.
  { intros acc. unfold addrMap, IterateGenesisAccounts.
    rewrite iterate_indexAccount_lookup. fold accs.
    destruct (last (filter _ accs)) as [acc'|] eqn:Hlast; [|done].
    intros [= <-]. apply last_Some in Hlast as [l Hl].
    assert (acc' ∈ filter (λ acc, sdk.String (GetAddress acc) = addr) accs) as Hin
      by (rewrite Hl; set_solver).
    apply list_elem_of_filter in Hin as [? ?]. done. }
  split; [|done]. split.
  - intros [acc Hacc]. exists acc. by apply Hstored.
  - intros (acc & Hin & Haddr). unfold addrMap, IterateGenesisAccounts.
    rewrite iterate_indexAccount_lookup. fold accs.
    destruct (last (filter _ accs)) as [acc'|] eqn:Hlast; [done|].
    apply last_None in Hlast.
    assert (acc ∈ filter (λ acc, sdk.String (GetAddress acc) = addr) accs) as Hf
      by (by apply list_elem_of_filter).
    rewrite Hlast in Hf. by apply elem_of_nil in Hf.
Qed.

(** ** The moniker *)

Section Moniker.
Context (fs : FileSystem) (cdc : Codec) (name1 name2 genTxsDir : string).
Context (addrMap : gmap string Account).

Lemma loopBody_moniker fo txs addrs1 addrs2 :
  match loopBody fs cdc name1 genTxsDir addrMap fo txs addrs1,
        loopBody fs cdc name2 genTxsDir addrMap fo txs addrs2 with
  | (Ret (Next txs1 _), t1), (Ret (Next txs2 _), t2) => txs1 = txs2 ∧ t1 = t2
  | (Ret (Return txs1 err1), t1), (Ret (Return txs2 err2), t2) =>
      txs1 = txs2 ∧ err1 = err2 ∧ t1 = t2
  | (Panic s1, t1), (Panic s2, t2) => s1 = s2 ∧ t1 = t2
  | _, _ => False
  end.
Proof.
  unfold loopBody, ioutil_ReadFile.
  destruct (negb (IsDir fo) && _); simpl; [done|].
  destruct (ReadFile fs _) as [raw|]; simpl; [|done].
  destruct (UnmarshalStdTx cdc raw) as [tx|]; simpl; [|done].
  destruct (String.length (GetMemo tx) =? 0)%nat; simpl; [done|].
  destruct (negb (length (GetMsgs tx) =? 1)%nat); simpl; [done|].
  destruct (GetMsgs tx) as [|[msg|] ?]; simpl; [done| |done].
  destruct (addrMap !! _); simpl; [|done].
  by destruct (negb (Name (Descr msg) =? name1)%string),
              (negb (Name (Descr msg) =? name2)%string).
Qed.

Lemma rangeLoop_moniker fos txs addrs1 addrs2 :
  match rangeLoop fs cdc name1 genTxsDir addrMap fos txs addrs1,
        rangeLoop fs cdc name2 genTxsDir addrMap fos txs addrs2 with
  | (Ret (Next txs1 _), t1), (Ret (Next txs2 _), t2) => txs1 = txs2 ∧ t1 = t2
  | (Ret (Return txs1 err1), t1), (Ret (Return txs2 err2), t2) =>
      txs1 = txs2 ∧ err1 = err2 ∧ t1 = t2
  | (Panic s1, t1), (Panic s2, t2) => s1 = s2 ∧ t1 = t2
  | _, _ => False
  end.
Proof.
  revert txs addrs1 addrs2. induction fos as [|fo fos IH]; intros txs addrs1 addrs2;
    [done|].
  rewrite !rangeLoop_cons.
  pose proof (loopBody_moniker fo txs addrs1 addrs2) as Hbody.
  destruct (loopBody fs cdc name1 _ _ _ _ _) as [[[txs1 a1|txs1 e1]|s1] t1],
           (loopBody fs cdc name2 _ _ _ _ _) as [[[txs2 a2|txs2 e2]|s2] t2];
    try done.
  destruct Hbody as [<- <-]. specialize (IH txs1 a1 a2).
  destruct (rangeLoop fs cdc name1 _ _ _ _ _) as [[[]|] ?],
           (rangeLoop fs cdc name2 _ _ _ _ _) as [[[]|] ?]; try done.
  - by destruct IH as [-> ->].
  - by destruct IH as (-> & -> & ->).
  - by destruct IH as [-> ->].
Qed.
End Moniker.

(** The moniker bears on the peer string only: two runs that differ in
    nothing but the moniker read the same files, collect the same
    transactions and end with the same error, if any, or the same panic. *)
Theorem CollectStdTxs_moniker_only_in_peers
    fs cdc name1 name2 genTxsDir genDoc genAccIterator :
  events (CollectStdTxs fs cdc name1 genTxsDir genDoc genAccIterator) =
  events (CollectStdTxs fs cdc name2 genTxsDir genDoc genAccIterator) ∧
  match returned (CollectStdTxs fs cdc name1 genTxsDir genDoc genAccIterator),
        returned (CollectStdTxs fs cdc name2 genTxsDir genDoc genAccIterator) with
  | Ret (txs1, _, err1), Ret (txs2, _, err2) => txs1 = txs2 ∧ err1 = err2
  | Panic s1, Panic s2 => s1 = s2
  | _, _ => False
  end.
Proof.
  destruct (ReadDir fs genTxsDir) as [fos|e] eqn:Hdir.
  2:{ unfold CollectStdTxs, ioutil_ReadDir. by rewrite Hdir. }
  destruct (addrMapOf cdc genDoc genAccIterator) as [addrMap|] eqn:Hmap.
  2:{ unfold CollectStdTxs, ioutil_ReadDir, addrMapOf in *. rewrite Hdir. simpl.
      by destruct (UnmarshalAppState cdc (AppState genDoc)). }
  rewrite !(CollectStdTxs_run _ _ _ _ _ _ _ _ Hdir Hmap).
  pose proof (rangeLoop_moniker fs cdc name1 name2 genTxsDir addrMap fos [] [] []) as H.
  destruct (rangeLoop fs cdc name1 _ _ _ _ _) as [[[]|] ?],
           (rangeLoop fs cdc name2 _ _ _ _ _) as [[[]|] ?]; try done.
  - by destruct H as [-> ->].
  - by destruct H as (-> & -> & ->).
  - by destruct H as [-> ->].
Qed.

(** ** The files of the assembly run *)

Section Assembly.
Context (fs : FileSystem) (genutil : Genutil) (cdc : Codec) (config : Config).
Context (initCfg : InitConfig) (genDoc : GenesisDoc).
Context (genAccIterator : GenesisAccountsIterator).

Local Abbreviation collected :=
  (CollectStdTxs fs cdc (Moniker config) (GenTxsDir initCfg) genDoc genAccIterator).
Local Abbreviation assembled :=
  (GenAppStateFromConfig fs genutil cdc config initCfg genDoc genAccIterator).
Local Abbreviation configFile :=
  (filepath.Join [RootDir config; "config"; "config.toml"]).

Ltac start_assembly :=
  pose proof (CollectStdTxs_writes_nothing fs cdc (Moniker config)
                (GenTxsDir initCfg) genDoc genAccIterator) as Hreads;
  unfold GenAppStateFromConfig, writes, events, returned in *;
  destruct (CollectStdTxs _ _ _ _ _ _) as [[[[txs0 peers0] [err0|]]|s0] t0];
  unfold mbind, M_bind in *; simpl in *.

(** An error of the collection is passed on as it is, with an empty
    application state, and no file is written. *)
Theorem GenAppStateFromConfig_collect_error txs peers err :
  returned collected = Ret (txs, peers, Some err) →
  returned assembled = Ret ("", Some err) ∧ writes assembled = [].
Proof.
  intros Hcollect. start_assembly; try done.
  injection Hcollect as -> -> ->. by rewrite app_nil_r.
Qed.

(** A run that returns no error has collected at least one transaction
    and has written two files: first config.toml with the collected peer
    string, then the genesis document, whose application state is the one
    returned and whose chain identifier is that of the draft. *)
Theorem GenAppStateFromConfig_success_writes appState :
  returned assembled = Ret (appState, None) →
  ∃ txs peers,
    returned collected = Ret (txs, peers, None) ∧
    txs ≠ [] ∧
    writes assembled =
      [EvWriteConfig configFile (set_PersistentPeers config peers);
       EvWriteGenesis (GenesisFile config)
         {| ChainID := ChainID genDoc; AppState := appState |}].
Proof.
  start_assembly; try done.
  unfold WriteConfigFile, ExportGenesisFile.
  destruct (WriteFails fs configFile); simpl; [done|].
  destruct txs0 as [|tx txs]; simpl; [done|].
  destruct (GenesisStateFromGenDoc genutil cdc genDoc) as [st|]; simpl; [|done].
  destruct (SetGenTxsInAppGenesisState genutil cdc st _) as [st'|]; simpl; [|done].
  destruct (MarshalJSONIndent cdc st') as [appState'|]; simpl; [|done].
  change (GenesisFile (set_PersistentPeers config peers0)) with (GenesisFile config).
  destruct (WriteFails fs (GenesisFile config)); simpl; [done|].
  intros [= <-]. exists (tx :: txs), peers0. split_and!; [done..|].
  by rewrite filter_app, Hreads.
Qed.

(** A run that returns an error has not written the genesis document.
    If the error is that of the collection nothing is written; any later
    error leaves config.toml written, with the collected peer string. *)
Theorem GenAppStateFromConfig_error_writes appState err :
  returned assembled = Ret (appState, Some err) →
  (∃ txs peers, returned collected = Ret (txs, peers, Some err) ∧
                writes assembled = []) ∨
  (∃ txs peers, returned collected = Ret (txs, peers, None) ∧
                writes assembled =
                  [EvWriteConfig configFile (set_PersistentPeers config peers)]).
Proof.
  start_assembly; try done.
  { intros [= _ ->]. left. exists txs0, peers0. by rewrite app_nil_r. }
  unfold WriteConfigFile, ExportGenesisFile.
  destruct (WriteFails fs configFile); simpl; [done|].
  intros Hret. right. exists txs0, peers0. split; [done|].
  destruct (length txs0 =? 0)%nat; simpl in *.
  { by rewrite filter_app, Hreads. }
  destruct (GenesisStateFromGenDoc genutil cdc genDoc) as [st|]; simpl in *;
    [|by rewrite filter_app, Hreads].
  destruct (SetGenTxsInAppGenesisState genutil cdc st _) as [st'|]; simpl in *;
    [|by rewrite filter_app, Hreads].
  destruct (MarshalJSONIndent cdc st') as [appState'|]; simpl in *;
    [|by rewrite filter_app, Hreads].
  destruct (WriteFails fs _); simpl in *; [|done].
  by rewrite filter_app, Hreads.
Qed.
End Assembly.

(** ** Instances of the properties above *)

Lemma CollectStdTxs_reads_a_prefix_witness :
  (Forall (entryOK Scenario.withTwoMsgs Scenario.cdc "gentxs" Scenario.index)
     [Scenario.entry "v1.json"; Scenario.entry "v2.json"; Scenario.entry "v3.json"] ∧
   events (Scenario.collect Scenario.withTwoMsgs "alice") =
     EvReadDir "gentxs" ::
     readsOf "gentxs"
       [Scenario.entry "v1.json"; Scenario.entry "v2.json"; Scenario.entry "v3.json"]) ∨
  (∃ pre fo post,
     [Scenario.entry "v1.json"; Scenario.entry "v2.json"; Scenario.entry "v3.json"]
       = pre ++ fo :: post ∧
     Forall (entryOK Scenario.withTwoMsgs Scenario.cdc "gentxs" Scenario.index) pre ∧
     ¬ entryOK Scenario.withTwoMsgs Scenario.cdc "gentxs" Scenario.index fo ∧
     events (Scenario.collect Scenario.withTwoMsgs "alice") =
       EvReadDir "gentxs" :: readsOf "gentxs" (pre ++ [fo])).
Proof.
  apply (CollectStdTxs_reads_a_prefix Scenario.withTwoMsgs Scenario.cdc "alice"
           "gentxs" Scenario.genDoc (Scenario.accounts ["addr1"; "addr2"])
           _ Scenario.index).
  - reflexivity.
  - vm_compute. reflexivity.
Defined.

(** On the directory whose second file has two messages, the third file
    is never read. *)
Example third_file_not_read :
  events (Scenario.collect Scenario.withTwoMsgs "alice") =
    [EvReadDir "gentxs"; EvReadFile "gentxs/v1.json"; EvReadFile "gentxs/v2.json"].
Proof. vm_compute. reflexivity. Qed.

Lemma CollectStdTxs_error_result_witness :
  "" = "" ∧
  ((addrMapOf Scenario.cdc Scenario.genDoc (Scenario.accounts ["addr1"; "addr2"]) = None ∧
    [Scenario.txAlice; Scenario.txTwoMsgs] = []) ∨
   ∃ addrMap pre fo post,
     addrMapOf Scenario.cdc Scenario.genDoc (Scenario.accounts ["addr1"; "addr2"])
       = Some addrMap ∧
     [Scenario.entry "v1.json"; Scenario.entry "v2.json"; Scenario.entry "v3.json"]
       = pre ++ fo :: post ∧
     Forall (entryOK Scenario.withTwoMsgs Scenario.cdc "gentxs" addrMap) pre ∧
     ¬ entryOK Scenario.withTwoMsgs Scenario.cdc "gentxs" addrMap fo ∧
     [Scenario.txAlice; Scenario.txTwoMsgs] =
       omap (decodedTx Scenario.withTwoMsgs Scenario.cdc "gentxs") (pre ++ [fo])).
Proof.
  apply (CollectStdTxs_error_result Scenario.withTwoMsgs Scenario.cdc "alice"
           "gentxs" Scenario.genDoc (Scenario.accounts ["addr1"; "addr2"])
           _ _ _
           (ErrUnknownRequest
              "each genesis transaction must provide a single genesis message")).
  - reflexivity.
  - vm_compute. reflexivity.
Defined.

Lemma CollectStdTxs_empty_memo_witness :
  returned (Scenario.collect Scenario.strangerNoMemo "alice") =
    Ret ([Scenario.txStrangerNoMemo], "",
         Some (ErrUnknownRequest "couldn't find node's address and IP in v2.json")).
Proof.
  apply (CollectStdTxs_empty_memo Scenario.strangerNoMemo Scenario.cdc "alice"
           "gentxs" Scenario.genDoc (Scenario.accounts ["addr1"; "addr2"])
           Scenario.index (Scenario.entry "v2.json") Scenario.txStrangerNoMemo []).
  - split; [|vm_compute; reflexivity].
    exists [], [], [], []. split_and!; vm_compute; reflexivity.
  - reflexivity.
Defined.

Lemma CollectStdTxs_decode_error_witness :
  returned (Scenario.collect Cases.withGarbage "alice") =
    Ret ([Scenario.txAlice], "", Some (ErrCodec "invalid character")).
Proof.
  apply (CollectStdTxs_decode_error Cases.withGarbage Scenario.cdc "alice"
           "gentxs" Scenario.genDoc (Scenario.accounts ["addr1"; "addr2"])
           Scenario.index (Scenario.entry "v2.json") [Scenario.txAlice]
           "not a transaction").
  - exists [Scenario.entry "v1.json"], [Scenario.entry "v3.json"], [],
           [EvReadFile "gentxs/v1.json"].
    split_and!; vm_compute; reflexivity.
  - reflexivity.
  - vm_compute. reflexivity.
  - vm_compute. reflexivity.
Defined.

Lemma GenAppStateFromConfig_collect_error_witness :
  returned (Scenario.assemble Scenario.withTwoMsgs "alice") =
    Ret ("", Some (ErrUnknownRequest
                     "each genesis transaction must provide a single genesis message")) ∧
  writes (Scenario.assemble Scenario.withTwoMsgs "alice") = [].
Proof.
  apply (GenAppStateFromConfig_collect_error Scenario.withTwoMsgs Scenario.genutil
           Scenario.cdc (Scenario.config "alice") Scenario.initCfg Scenario.genDoc
           (Scenario.accounts ["addr1"; "addr2"])
           [Scenario.txAlice; Scenario.txTwoMsgs] "").
  vm_compute. reflexivity.
Defined.

Lemma GenAppStateFromConfig_success_writes_witness :
  ∃ txs peers,
    returned (Scenario.collect Scenario.twoValidators "alice") = Ret (txs, peers, None) ∧
    txs ≠ [] ∧
    writes (Scenario.assemble Scenario.twoValidators "alice") =
      [EvWriteConfig "/root/.zbld/config/config.toml"
         (set_PersistentPeers (Scenario.config "alice") peers);
       EvWriteGenesis "/root/.zbld/config/genesis.json"
         {| ChainID := "zbl"; AppState := "{}" |}].
Proof.
  apply (GenAppStateFromConfig_success_writes Scenario.twoValidators Scenario.genutil
           Scenario.cdc (Scenario.config "alice") Scenario.initCfg Scenario.genDoc
           (Scenario.accounts ["addr1"; "addr2"]) "{}").
  vm_compute. reflexivity.
Defined.

Lemma GenAppStateFromConfig_error_writes_witness :
  (∃ txs peers,
     returned (Scenario.collect Cases.genesisNotWritable "alice") =
       Ret (txs, peers, Some (ErrIO "permission denied")) ∧
     writes (Scenario.assemble Cases.genesisNotWritable "alice") = []) ∨
  (∃ txs peers,
     returned (Scenario.collect Cases.genesisNotWritable "alice") =
       Ret (txs, peers, None) ∧
     writes (Scenario.assemble Cases.genesisNotWritable "alice") =
       [EvWriteConfig "/root/.zbld/config/config.toml"
          (set_PersistentPeers (Scenario.config "alice") peers)]).
Proof.
  apply (GenAppStateFromConfig_error_writes Cases.genesisNotWritable Scenario.genutil
           Scenario.cdc (Scenario.config "alice") Scenario.initCfg Scenario.genDoc
           (Scenario.accounts ["addr1"; "addr2"]) "{}" (ErrIO "permission denied")).
  vm_compute. reflexivity.
Defined.

(** The genesis file cannot be written: the run returns the error of the
    write together with the marshalled state, and config.toml stays
    behind. *)
Example assemble_genesis_not_writable :
  returned (Scenario.assemble Cases.genesisNotWritable "alice") =
    Ret ("{}", Some (ErrIO "permission denied")) ∧
  writes (Scenario.assemble Cases.genesisNotWritable "alice") =
    [EvWriteConfig "/root/.zbld/config/config.toml"
       (set_PersistentPeers (Scenario.config "alice") "nodeB@10.0.0.2:26656")].
Proof. split; vm_compute; reflexivity. Qed.

(** * The REST request context *)

Example ParseBool_spellings :
  (λ s, fst (rest.ParseBool id s)) <$> ["1"; "t"; "TRUE"; "0"; "False"; "yes"; "tRuE"]
  = [true; true; true; false; false; false; false].
Proof. reflexivity. Qed.

Example QueryStore_former_height :
  rest.QueryStore RestCases.be (RestCases.ctx 42 {["prev_height" := ["true"]]})
    "model/1" "modelinfo"
  = (Ret (Some "former", 41%Z, None),
     [rest.NodeStatus; rest.StoreQueried 41 "model/1" "modelinfo"]).
Proof. vm_compute. reflexivity. Qed.

Section RestFacts.
Context (be : rest.Backend).

Ltac run_rest :=
  unfold rest.QueryStore, rest.previousHeightBlock, rest.WithFormerHeight,
    rest.context_QueryStore, rest.sdk_WriteErrorResponse, rest.GetNode,
    rest.tell, rest.crash, mbind, rest.RM_bind, mret, rest.RM_ret in *.

(** ** QueryStore *)

(** Without the [prev_height] flag, or with one that says false, the
    store is queried once, at height 0, and the answer is returned as it
    is; the node is not asked for its status. *)
Theorem QueryStore_latest_state ctx req key storeName :
  rest.request ctx = Some req →
  rest.FormValue req rest.FlagPreviousHeight = "" ∨
  rest.ParseBool (rest.Quote be) (rest.FormValue req rest.FlagPreviousHeight)
    = (false, None) →
  rest.QueryStore be ctx key storeName =
    (Ret (rest.StoreQuery be 0 key storeName), [rest.StoreQueried 0 key storeName]).
Proof.
  intros Hreq Hflag. run_rest. rewrite Hreq.
  destruct Hflag as [->|Hparse]; [done|].
  destruct (0 <? _)%nat; [|done]. by rewrite Hparse.
Qed.

(** A flag that is no boolean makes the method return the parse error
    with no result; nothing is queried and no response is written. *)
Theorem QueryStore_flag_not_boolean ctx req key storeName b err :
  rest.request ctx = Some req →
  rest.FormValue req rest.FlagPreviousHeight ≠ "" →
  rest.ParseBool (rest.Quote be) (rest.FormValue req rest.FlagPreviousHeight)
    = (b, Some err) →
  rest.QueryStore be ctx key storeName = (Ret (None, 0%Z, Some err), []).
Proof.
  intros Hreq Hflag Hparse. run_rest. rewrite Hreq.
  destruct (rest.FormValue req rest.FlagPreviousHeight) as [|c flag]; [done|].
  simpl. by rewrite Hparse.
Qed.

(** With the flag set and the node at height [latest], the store is
    queried at the height before; an answer that carries a result is
    returned, together with the error that came with it, and the store is
    not queried again. *)
Theorem QueryStore_former_state ctx req node latest key storeName res height err :
  rest.request ctx = Some req →
  rest.ParseBool (rest.Quote be) (rest.FormValue req rest.FlagPreviousHeight)
    = (true, None) →
  rest.Client (rest.context ctx) = Some node →
  rest.Status node = rest.Got latest →
  rest.StoreQuery be (rest.wrap64 (latest - 1)) key storeName = (Some res, height, err) →
  rest.QueryStore be ctx key storeName =
    (Ret (Some res, height, err),
     [rest.NodeStatus; rest.StoreQueried (rest.wrap64 (latest - 1)) key storeName]).
Proof.
  intros Hreq Hparse Hclient Hstatus Hstore. run_rest. rewrite Hreq.
  destruct (rest.FormValue req rest.FlagPreviousHeight) as [|c flag] eqn:Hflag;
    [done|].
  simpl. rewrite Hparse, Hclient. simpl. rewrite Hstatus. simpl.
  by rewrite Hstore.
Qed.

(** When the store has no result at the former height, the answer of that
    query, its error included, is dropped and the store is queried again
    at height 0. *)
Theorem QueryStore_falls_back ctx req node latest key storeName height err :
  rest.request ctx = Some req →
  rest.ParseBool (rest.Quote be) (rest.FormValue req rest.FlagPreviousHeight)
    = (true, None) →
  rest.Client (rest.context ctx) = Some node →
  rest.Status node = rest.Got latest →
  rest.StoreQuery be (rest.wrap64 (latest - 1)) key storeName = (None, height, err) →
  rest.QueryStore be ctx key storeName =
    (Ret (rest.StoreQuery be 0 key storeName),
     [rest.NodeStatus;
      rest.StoreQueried (rest.wrap64 (latest - 1)) key storeName;
      rest.StoreQueried 0 key storeName]).
Proof.
  intros Hreq Hparse Hclient Hstatus Hstore. run_rest. rewrite Hreq.
  destruct (rest.FormValue req rest.FlagPreviousHeight) as [|c flag] eqn:Hflag;
    [done|].
  simpl. rewrite Hparse, Hclient. simpl. rewrite Hstatus. simpl.
  by rewrite Hstore.
Qed.

(** With the flag set and no node status to be had, the method returns
    the error with no result; one response, a 500 with the text of the
    error, has been written, and the store is not queried.  (On a nil
    writer the attempt to write that response is a panic.) *)
Theorem QueryStore_node_unavailable ctx req key storeName :
  rest.request ctx = Some req →
  rest.ParseBool (rest.Quote be) (rest.FormValue req rest.FlagPreviousHeight)
    = (true, None) →
  (∀ node, rest.Client (rest.context ctx) = Some node →
           ∃ err, rest.Status node = rest.Failed err) →
  match rest.responseWriter ctx with
  | Some w =>
      ∃ err,
        rest.result (rest.QueryStore be ctx key storeName) = Ret (None, 0%Z, Some err) ∧
        filter rest.is_response (rest.effects (rest.QueryStore be ctx key storeName)) =
          [rest.ErrorResponse w 500 (rest.Error err)] ∧
        filter rest.is_store_query (rest.effects (rest.QueryStore be ctx key storeName)) = []
  | None =>
      (∃ reason, rest.result (rest.QueryStore be ctx key storeName) = Panic reason) ∧
      filter rest.is_response (rest.effects (rest.QueryStore be ctx key storeName)) = [] ∧
      filter rest.is_store_query (rest.effects (rest.QueryStore be ctx key storeName)) = []
  end.
Proof.
  intros Hreq Hparse Hnode. run_rest. rewrite Hreq.
  destruct (rest.FormValue req rest.FlagPreviousHeight) as [|c flag] eqn:Hflag;
    [done|].
  simpl. rewrite Hparse.
  destruct (rest.Client (rest.context ctx)) as [node|]; simpl.
  - destruct (Hnode node eq_refl) as [err ->].
    destruct (rest.responseWriter ctx); simpl; [by exists err|].
    split; [by eexists|done].
  - destruct (rest.responseWriter ctx); simpl; [by eexists|].
    split; [by eexists|done].
Qed.

(** In every run that returns, the store is queried at most twice, each
    time for the requested key and store, and what is returned is the
    answer of the last query made.  A second query is made only at height
    0 and only after a first one that had no result; a run without a query
    returns an error and no result. *)
Theorem QueryStore_returns_last_answer ctx key storeName r :
  rest.result (rest.QueryStore be ctx key storeName) = Ret r →
  match filter rest.is_store_query (rest.effects (rest.QueryStore be ctx key storeName)) with
  | [] => ∃ err, r = (None, 0%Z, Some err)
  | [rest.StoreQueried h k s] =>
      k = key ∧ s = storeName ∧ r = rest.StoreQuery be h key storeName
  | [rest.StoreQueried h1 k1 s1; rest.StoreQueried h k s] =>
      k1 = key ∧ s1 = storeName ∧
      (rest.StoreQuery be h1 key storeName).1.1 = None ∧
      k = key ∧ s = storeName ∧ h = 0%Z ∧
      r = rest.StoreQuery be 0 key storeName
  | _ => False
  end.
Proof.
  run_rest. destruct (rest.request ctx) as [req|]; [|done].
  destruct (0 <? _)%nat; simpl.
  2:{ by intros [= <-]. }
  destruct (rest.ParseBool _ _) as [[|] [err|]]; simpl.
  - intros [= <-]. by exists err.
  - destruct (rest.Client (rest.context ctx)) as [node|]; simpl.
    + destruct (rest.Status node) as [latest|err]; simpl.
      * destruct (rest.StoreQuery be (rest.wrap64 (latest - 1)) key storeName)
          as [[[res|] height] err] eqn:Hq; simpl.
        -- intros [= <-]. by rewrite Hq.
        -- intros [= <-]. by rewrite Hq.
      * destruct (rest.responseWriter ctx); simpl; [|done].
        intros [= <-]. by exists err.
    + destruct (rest.responseWriter ctx); simpl; [|done].
      intros [= <-]. by eexists.
  - intros [= <-]. by exists err.
  - by intros [= <-].
Qed.
End RestFacts.

Lemma wrap64_in_range (z : Z) :
  (- 2 ^ 63 ≤ z < 2 ^ 63)%Z → rest.wrap64 z = z.
Proof. intros Hz. unfold rest.wrap64. rewrite Z.mod_small; lia. Qed.

Section RestWrites.
Context (be : rest.Backend).

Ltac run_write :=
  unfold rest.HandleWriteRequest, rest.SignAndBroadcastMessage, rest.SignMessage,
    rest.BroadcastMessage, rest.sdk_WriteErrorResponse, rest.sdk_PostProcessResponse,
    rest.sdk_WriteGenerateStdTxResponse, rest.QueryList, rest.QueryWithData, rest.RespondWithHeight,
    rest.context_QueryWithData, rest.WithFormerHeight, rest.GetNode,
    rest.tell, rest.crash, mbind, rest.RM_bind, mret, rest.RM_ret in *.

(** ** WithFormerHeight *)

(** On a node whose latest height is an [int64] above the least one, the
    returned context is the receiver moved one block back, without
    wrap-around: the client, the broadcast mode, the writer, the request
    and the signer are those of the receiver, and no response is written. *)
Theorem WithFormerHeight_one_block_back ctx node latest :
  rest.Client (rest.context ctx) = Some node →
  rest.Status node = rest.Got latest →
  (- 2 ^ 63 < latest < 2 ^ 63)%Z →
  rest.WithFormerHeight ctx =
    (Ret (rest.set_context ctx (rest.WithHeight (rest.context ctx) (latest - 1)), None),
     [rest.NodeStatus]).
Proof.
  intros Hclient Hstatus Hrange. run_write. rewrite Hclient. simpl.
  rewrite Hstatus. simpl. by rewrite wrap64_in_range by lia.
Qed.

(** ** HandleWriteRequest *)



(** On the zero context, which has no writer, a message that fails
    [ValidateBasic] cannot be answered: the call panics. *)
Lemma HandleWriteRequest_nil_writer msg err :
  rest.ValidateBasic be msg = Some err →
  ∃ reason, rest.HandleWriteRequest be rest.zero msg = (Panic reason, []).
Proof. intros Hv. run_write. rewrite Hv. simpl. by eexists. Qed.

Ltac not_in_effects :=
  rewrite ?elem_of_cons, ?elem_of_nil;
  let H := fresh in
  intros H; repeat (destruct H as [H|H]; [by discriminate H|]);
  first [by discriminate H | by destruct H].

Ltac pick_effect :=
  rewrite ?elem_of_cons, ?elem_of_nil;
  let H := fresh in
  intros H;
  repeat (destruct H as [H|H]; [first [by discriminate H | exact H]|]);
  first [by discriminate H | exact H | by destruct H].

(** A message is handed to the signer only when it passed [ValidateBasic]
    and the request carries credentials; it is then signed alone, under
    the account name and passphrase of the request and for the chain of
    the base request. *)
Theorem HandleWriteRequest_signs_only_valid ctx msg chainId name passphrase msgs :
  rest.Signed chainId name passphrase msgs ∈
    rest.effects (rest.HandleWriteRequest be ctx msg) →
  rest.ValidateBasic be msg = None ∧
  (∃ req, rest.request ctx = Some req ∧
          rest.GetCredentialsFromRequest be req = rest.Got (name, passphrase)) ∧
  chainId = rest.ChainID (rest.baseReq ctx) ∧
  msgs = [msg].
Proof.
  run_write. unfold rest.effects.
  destruct (rest.ValidateBasic be msg); simpl.
  { destruct (rest.responseWriter ctx); simpl; not_in_effects. }
  destruct (rest.request ctx) as [req|]; simpl; [|not_in_effects].
  destruct (rest.GetCredentialsFromRequest be req) as [[account pass]|] eqn:Hcred; simpl.
  2:{ destruct (rest.responseWriter ctx); simpl; not_in_effects. }
  intros Hin.
  assert (rest.Signed chainId name passphrase msgs =
          rest.Signed (rest.ChainID (rest.baseReq ctx)) account pass [msg]) as [= -> -> -> ->].
  { revert Hin.
    destruct (rest.GetAccount be _) as [[accountNumber sequence]|]; simpl.
    2:{ destruct (rest.responseWriter ctx); simpl; pick_effect. }
    destruct (rest.BuildAndSign be _ _ _ _ _ _); simpl.
    2:{ destruct (rest.responseWriter ctx); simpl; pick_effect. }
    destruct (rest.BroadcastTx be _ _); simpl.
    2:{ destruct (rest.responseWriter ctx); simpl; pick_effect. }
    destruct (rest.MarshalJSON be _); simpl.
    2:{ destruct (rest.responseWriter ctx); simpl; pick_effect. }
    destruct (rest.Height (rest.context ctx) <? 0)%Z; simpl.
    { destruct (rest.responseWriter ctx); simpl; pick_effect. }
    destruct (rest.MarshalResponseWithHeight be _ _); simpl;
      destruct (rest.responseWriter ctx); simpl; pick_effect. }
  split_and!; [done| |done..]. by exists req.
Qed.

(** A transaction is broadcast only when the signing succeeded: what is
    broadcast is what [BuildAndSign] returned for the account number and
    sequence of the signer, and the mode is "block" whatever the mode of
    the context. *)
Theorem HandleWriteRequest_broadcasts_only_signed ctx msg mode tx :
  rest.Broadcast mode tx ∈ rest.effects (rest.HandleWriteRequest be ctx msg) →
  mode = "block" ∧
  ∃ req account passphrase accountNumber sequence,
    rest.request ctx = Some req ∧
    rest.GetCredentialsFromRequest be req = rest.Got (account, passphrase) ∧
    rest.GetAccount be (rest.signer ctx) = rest.Got (accountNumber, sequence) ∧
    rest.BuildAndSign be (rest.ChainID (rest.baseReq ctx)) accountNumber sequence
      account passphrase [msg] = rest.Got tx.
Proof.
  run_write. unfold rest.effects.
  destruct (rest.ValidateBasic be msg); simpl.
  { destruct (rest.responseWriter ctx); simpl; not_in_effects. }
  destruct (rest.request ctx) as [req|]; simpl; [|not_in_effects].
  destruct (rest.GetCredentialsFromRequest be req) as [[account pass]|] eqn:Hcred; simpl.
  2:{ destruct (rest.responseWriter ctx); simpl; not_in_effects. }
  destruct (rest.GetAccount be _) as [[accountNumber sequence]|] eqn:Hacc; simpl.
  2:{ destruct (rest.responseWriter ctx); simpl; not_in_effects. }
  destruct (rest.BuildAndSign be _ _ _ _ _ _) as [bz|] eqn:Hsign; simpl.
  2:{ destruct (rest.responseWriter ctx); simpl; not_in_effects. }
  intros Hin.
  assert (rest.Broadcast mode tx = rest.Broadcast "block" bz) as [= -> ->].
  { revert Hin.
    destruct (rest.BroadcastTx be _ _); simpl.
    2:{ destruct (rest.responseWriter ctx); simpl; pick_effect. }
    destruct (rest.MarshalJSON be _); simpl.
    2:{ destruct (rest.responseWriter ctx); simpl; pick_effect. }
    destruct (rest.Height (rest.context ctx) <? 0)%Z; simpl.
    { destruct (rest.responseWriter ctx); simpl; pick_effect. }
    destruct (rest.MarshalResponseWithHeight be _ _); simpl;
      destruct (rest.responseWriter ctx); simpl; pick_effect. }
  split; [done|]. by exists req, account, pass, accountNumber, sequence.
Qed.

(** The success response is written only after a broadcast went through:
    its body is the marshalled response of the broadcast, and it goes to
    the writer of the context at the height of the context, which is not
    negative. *)
Theorem HandleWriteRequest_success_response ctx msg w height body :
  rest.Response w height body ∈ rest.effects (rest.HandleWriteRequest be ctx msg) →
  rest.responseWriter ctx = Some w ∧
  height = rest.Height (rest.context ctx) ∧
  (0 ≤ height)%Z ∧
  ∃ tx res bz,
    rest.Broadcast "block" tx ∈ rest.effects (rest.HandleWriteRequest be ctx msg) ∧
    rest.BroadcastTx be "block" tx = rest.Got res ∧
    rest.MarshalJSON be res = rest.Got bz ∧
    body = Some bz.
Proof.
  run_write. unfold rest.effects.
  destruct (rest.ValidateBasic be msg); simpl.
  { destruct (rest.responseWriter ctx); simpl; not_in_effects. }
  destruct (rest.request ctx) as [req|]; simpl; [|not_in_effects].
  destruct (rest.GetCredentialsFromRequest be req) as [[account pass]|]; simpl.
  2:{ destruct (rest.responseWriter ctx); simpl; not_in_effects. }
  destruct (rest.GetAccount be _) as [[accountNumber sequence]|]; simpl.
  2:{ destruct (rest.responseWriter ctx); simpl; not_in_effects. }
  destruct (rest.BuildAndSign be _ _ _ _ _ _) as [tx|]; simpl.
  2:{ destruct (rest.responseWriter ctx); simpl; not_in_effects. }
  destruct (rest.BroadcastTx be _ _) as [res|] eqn:Hres; simpl.
  2:{ destruct (rest.responseWriter ctx); simpl; not_in_effects. }
  destruct (rest.MarshalJSON be res) as [bz|] eqn:Hbz; simpl.
  2:{ destruct (rest.responseWriter ctx); simpl; not_in_effects. }
  destruct (rest.Height (rest.context ctx) <? 0)%Z eqn:Hneg; simpl.
  { destruct (rest.responseWriter ctx); simpl; not_in_effects. }
  destruct (rest.MarshalResponseWithHeight be _ _); simpl.
  2:{ destruct (rest.responseWriter ctx); simpl; not_in_effects. }
  destruct (rest.responseWriter ctx) as [w'|]; simpl; [|not_in_effects].
  rewrite !elem_of_cons.
  intros [[=]|[[=]|[[=]|[[= -> -> ->]|[]%elem_of_nil]]]].
  split_and!; [done..|lia|]. exists tx, res, bz. split_and!; [|done..].
  rewrite !elem_of_cons. auto.
Qed.

(** ** QueryList *)

(** On a context with a writer, when the parameters can be marshalled,
    the list query is made once, at the height of the context, and
    answered with one response: a 404 with the text of the error if the
    query failed; else, for the height that the query returned, a 500 if
    that height is negative or the response cannot be marshalled, and the
    result at that height otherwise. *)
Theorem QueryList_answers_once ctx w path params bz res height err :
  rest.responseWriter ctx = Some w →
  rest.MustMarshalJSON be params = Some bz →
  rest.DataQuery be (rest.Height (rest.context ctx)) path bz = (res, height, err) →
  rest.QueryList be ctx path params =
    (Ret tt,
     [rest.DataQueried (rest.Height (rest.context ctx)) path bz;
      match err with
      | Some err => rest.ErrorResponse w 404 (rest.Error err)
      | None =>
          if (height <? 0)%Z then
            rest.ErrorResponse w 500 "negative height in response"
          else
            match rest.MarshalResponseWithHeight be height res with
            | rest.Got _ => rest.Response w height res
            | rest.Failed e => rest.ErrorResponse w 500 (rest.Error e)
            end
      end]).
Proof.
  intros Hw Hm Hq. run_write. rewrite Hm. simpl. rewrite Hq, Hw.
  destruct err; simpl; [done|].
  unfold rest.sdk_PostProcessResponse, rest.sdk_WriteErrorResponse, rest.tell. simpl.
  destruct (height <? 0)%Z; simpl; [done|].
  by destruct (rest.MarshalResponseWithHeight be height res).
Qed.
End RestWrites.

(** ** Instances on the example node *)

Lemma QueryStore_latest_state_witness :
  rest.QueryStore RestCases.be (RestCases.ctx 42 {["prev_height" := ["False"]]})
    "model/1" "modelinfo"
  = (Ret (rest.StoreQuery RestCases.be 0 "model/1" "modelinfo"),
     [rest.StoreQueried 0 "model/1" "modelinfo"]).
Proof.
  apply (QueryStore_latest_state RestCases.be _
           {| rest.Form := {["prev_height" := ["False"]]} |}).
  - reflexivity.
  - right. vm_compute. reflexivity.
Defined.

Lemma QueryStore_flag_not_boolean_witness :
  rest.QueryStore RestCases.be (RestCases.ctx 42 {["prev_height" := ["yes"]]})
    "model/1" "modelinfo"
  = (Ret (None, 0%Z,
          Some {| rest.Error :=
                    "strconv.ParseBool: parsing " +:+ rest.Quote RestCases.be "yes"
                    +:+ ": invalid syntax" |}),
     []).
Proof.
  apply (QueryStore_flag_not_boolean RestCases.be _
           {| rest.Form := {["prev_height" := ["yes"]]} |} _ _ false).
  - reflexivity.
  - vm_compute. discriminate.
  - vm_compute. reflexivity.
Defined.

Lemma QueryStore_former_state_witness :
  rest.QueryStore RestCases.be (RestCases.ctx 42 {["prev_height" := ["1"]]})
    "model/1" "modelinfo"
  = (Ret (Some "former", 41%Z, None),
     [rest.NodeStatus; rest.StoreQueried (rest.wrap64 (42 - 1)) "model/1" "modelinfo"]).
Proof.
  apply (QueryStore_former_state RestCases.be _
           {| rest.Form := {["prev_height" := ["1"]]} |}
           {| rest.Status := rest.Got 42%Z |}).
  - reflexivity.
  - vm_compute. reflexivity.
  - reflexivity.
  - reflexivity.
  - vm_compute. reflexivity.
Defined.

Lemma QueryStore_falls_back_witness :
  rest.QueryStore RestCases.be (RestCases.ctx 10 {["prev_height" := ["true"]]})
    "model/1" "modelinfo"
  = (Ret (rest.StoreQuery RestCases.be 0 "model/1" "modelinfo"),
     [rest.NodeStatus;
      rest.StoreQueried (rest.wrap64 (10 - 1)) "model/1" "modelinfo";
      rest.StoreQueried 0 "model/1" "modelinfo"]).
Proof.
  apply (QueryStore_falls_back RestCases.be _
           {| rest.Form := {["prev_height" := ["true"]]} |}
           {| rest.Status := rest.Got 10%Z |} _ _ _ 9%Z
           (Some {| rest.Error := "no state at that height" |})).
  - reflexivity.
  - vm_compute. reflexivity.
  - reflexivity.
  - reflexivity.
  - vm_compute. reflexivity.
Defined.

Lemma QueryStore_node_unavailable_witness :
  ∃ err,
    rest.result (rest.QueryStore RestCases.be
                   (RestCases.offline {["prev_height" := ["true"]]}) "model/1" "modelinfo")
      = Ret (None, 0%Z, Some err) ∧
    filter rest.is_response
      (rest.effects (rest.QueryStore RestCases.be
                       (RestCases.offline {["prev_height" := ["true"]]}) "model/1" "modelinfo"))
      = [rest.ErrorResponse "w" 500 (rest.Error err)] ∧
    filter rest.is_store_query
      (rest.effects (rest.QueryStore RestCases.be
                       (RestCases.offline {["prev_height" := ["true"]]}) "model/1" "modelinfo"))
      = [].
Proof.
  apply (QueryStore_node_unavailable RestCases.be
           (RestCases.offline {["prev_height" := ["true"]]})
           {| rest.Form := {["prev_height" := ["true"]]} |} "model/1" "modelinfo").
  - reflexivity.
  - vm_compute. reflexivity.
  - intros node Hnode. vm_compute in Hnode. discriminate.
Defined.

Lemma QueryStore_returns_last_answer_witness :
  match
    filter rest.is_store_query
      (rest.effects (rest.QueryStore RestCases.be
                       (RestCases.ctx 10 {["prev_height" := ["true"]]}) "model/1" "modelinfo"))
  with
  | [] => ∃ err : rest.goerror, (Some "latest", 42%Z, None) = (None, 0%Z, Some err)
  | [rest.StoreQueried h k s] =>
      k = "model/1" ∧ s = "modelinfo" ∧
      (Some "latest", 42%Z, None) = rest.StoreQuery RestCases.be h "model/1" "modelinfo"
  | [rest.StoreQueried h1 k1 s1; rest.StoreQueried h k s] =>
      k1 = "model/1" ∧ s1 = "modelinfo" ∧
      (rest.StoreQuery RestCases.be h1 "model/1" "modelinfo").1.1 = None ∧
      k = "model/1" ∧ s = "modelinfo" ∧ h = 0%Z ∧
      (Some "latest", 42%Z, None) = rest.StoreQuery RestCases.be 0 "model/1" "modelinfo"
  | _ => False
  end.
Proof.
  apply (QueryStore_returns_last_answer RestCases.be
           (RestCases.ctx 10 {["prev_height" := ["true"]]}) "model/1" "modelinfo"
           (Some "latest", 42%Z, None)).
  vm_compute. reflexivity.
Defined.

(** The two queries of that run. *)
Example QueryStore_two_queries :
  filter rest.is_store_query
    (rest.effects (rest.QueryStore RestCases.be
                     (RestCases.ctx 10 {["prev_height" := ["true"]]}) "model/1" "modelinfo"))
  = [rest.StoreQueried 9 "model/1" "modelinfo"; rest.StoreQueried 0 "model/1" "modelinfo"].
Proof. vm_compute. reflexivity. Qed.

Lemma WithFormerHeight_one_block_back_witness :
  rest.WithFormerHeight (RestCases.ctx 42 ∅) =
    (Ret (rest.set_context (RestCases.ctx 42 ∅)
            (rest.WithHeight (rest.context (RestCases.ctx 42 ∅)) (42 - 1)), None),
     [rest.NodeStatus]).
Proof.
  apply (WithFormerHeight_one_block_back (RestCases.ctx 42 ∅)
           {| rest.Status := rest.Got 42%Z |}).
  - reflexivity.
  - reflexivity.
  - lia.
Defined.


Lemma HandleWriteRequest_signs_only_valid_witness :
  rest.ValidateBasic RestCases.be RestCases.createValidator = None ∧
  (∃ req,
     rest.request (RestCases.ctx 42 {["user" := ["alice"]; "password" := ["secret"]]})
       = Some req ∧
     rest.GetCredentialsFromRequest RestCases.be req = rest.Got ("alice", "secret")) ∧
  "zbl" = rest.ChainID
            (rest.baseReq (RestCases.ctx 42 {["user" := ["alice"]; "password" := ["secret"]]})) ∧
  [RestCases.createValidator] = [RestCases.createValidator].
Proof.
  apply (HandleWriteRequest_signs_only_valid RestCases.be
           (RestCases.ctx 42 {["user" := ["alice"]; "password" := ["secret"]]})).
  apply list_elem_of_In. vm_compute. auto.
Defined.

Lemma HandleWriteRequest_broadcasts_only_signed_witness :
  "block" = "block" ∧
  ∃ req account passphrase accountNumber sequence,
    rest.request (RestCases.ctx 42 {["user" := ["alice"]; "password" := ["secret"]]})
      = Some req ∧
    rest.GetCredentialsFromRequest RestCases.be req = rest.Got (account, passphrase) ∧
    rest.GetAccount RestCases.be
      (rest.signer (RestCases.ctx 42 {["user" := ["alice"]; "password" := ["secret"]]}))
      = rest.Got (accountNumber, sequence) ∧
    rest.BuildAndSign RestCases.be
      (rest.ChainID
         (rest.baseReq (RestCases.ctx 42 {["user" := ["alice"]; "password" := ["secret"]]})))
      accountNumber sequence account passphrase [RestCases.createValidator]
      = rest.Got "signed by alice".
Proof.
  apply (HandleWriteRequest_broadcasts_only_signed RestCases.be
           (RestCases.ctx 42 {["user" := ["alice"]; "password" := ["secret"]]})
           RestCases.createValidator).
  apply list_elem_of_In. vm_compute. auto.
Defined.

Lemma HandleWriteRequest_success_response_witness :
  rest.responseWriter
    (RestCases.ctx 42 {["user" := ["alice"]; "password" := ["secret"]]}) = Some "w" ∧
  0%Z = rest.Height
          (rest.context (RestCases.ctx 42 {["user" := ["alice"]; "password" := ["secret"]]})) ∧
  (0 ≤ 0)%Z ∧
  ∃ tx res bz,
    rest.Broadcast "block" tx ∈
      rest.effects
        (rest.HandleWriteRequest RestCases.be
           (RestCases.ctx 42 {["user" := ["alice"]; "password" := ["secret"]]})
           RestCases.createValidator) ∧
    rest.BroadcastTx RestCases.be "block" tx = rest.Got res ∧
    rest.MarshalJSON RestCases.be res = rest.Got bz ∧
    Some "committed signed by alice" = Some bz.
Proof.
  apply (HandleWriteRequest_success_response RestCases.be
           (RestCases.ctx 42 {["user" := ["alice"]; "password" := ["secret"]]})
           RestCases.createValidator).
  apply list_elem_of_In. vm_compute. auto.
Defined.

Lemma QueryList_answers_once_witness :
  rest.QueryList RestCases.be (RestCases.ctx 42 ∅) "custom/model/all" "{}" =
    (Ret tt,
     [rest.DataQueried (rest.Height (rest.context (RestCases.ctx 42 ∅)))
        "custom/model/all" "{}";
      rest.Response "w" 42 (Some "[]")]).
Proof.
  apply (QueryList_answers_once RestCases.be (RestCases.ctx 42 ∅) "w"
           "custom/model/all" "{}" "{}" (Some "[]") 42%Z None).
  - reflexivity.
  - reflexivity.
  - vm_compute. reflexivity.
Defined.

(** A message that fails [ValidateBasic] is answered with a 400 and
    nothing else happens. *)
Example HandleWriteRequest_invalid_message :
  rest.HandleWriteRequest RestCases.be
    (RestCases.ctx 42 {["user" := ["alice"]; "password" := ["secret"]]})
    (OtherMsg "bank")
  = (Ret tt, [rest.ErrorResponse "w" 400 "unknown message"]).
Proof. vm_compute. reflexivity. Qed.

(** Without credentials the transaction is generated, not signed. *)
Example HandleWriteRequest_without_credentials :
  rest.HandleWriteRequest RestCases.be (RestCases.ctx 42 ∅) RestCases.createValidator
  = (Ret tt,
     [rest.GenerateResponse "w" {| rest.From := "addr1"; rest.ChainID := "zbl" |}
        [RestCases.createValidator]]).
Proof. vm_compute. reflexivity. Qed.

(** A response at a negative height is refused by the post-processing. *)
Example RespondWithHeight_negative_height :
  rest.RespondWithHeight RestCases.be (RestCases.ctx 42 ∅) (Some "[]") (-1)
  = (Ret tt, [rest.ErrorResponse "w" 500 "negative height in response"]).
Proof. vm_compute. reflexivity. Qed.
